(** * recipe-cookbook: the console recipe generator, embedded and verified

    A shallow embedding of [recipe_cookbook.py] (class [RecipeCookbook]):
    the prompt template, the call to the text-generation service, the
    recipe file writer and the interactive session loop, and with them
    the constructor and [main], which set the session up on a [host].

    The outside of the program is a [world]: the keys still to come at
    the keyboard, the answers of the service, the readings of the clock,
    the files and the faults of the disk, and the trace of what the
    program did.  A method is a function from worlds to a result (a value
    or a raised exception) and a world.

    Python strings are Rocq strings read character by character: one
    [ascii] is one code point in the range U+0000..U+00FF, and the string
    methods below ([strip], [lower]) are Python's on that range.  The
    program's own messages hold a few characters beyond U+00FF; they stand
    here as their UTF-8 bytes, and the program only ever prints them. *)

From Stdlib Require Import Ascii String ZArith Lia.
From stdpp Require Import base option list strings gmap.

Local Open Scope string_scope.
Local Open Scope list_scope.
Local Open Scope nat_scope.

(** Python's [+] on strings is [String.append], written [+:+] as in stdpp. *)

(* ===================================================================== *)
(** ** Python string methods used by the program *)
(* ===================================================================== *)

Module PyStr.

(** The line feed of ["\n"]. *)
Definition nl : string := String (ascii_of_nat 10) "".

(** [s * n] *)
Fixpoint repeat_str (s : string) (n : nat) : string :=
  match n with
  | O => ""
  | S k => s +:+ repeat_str s k
  end.

(** [sep.join(items)] *)
Fixpoint join (sep : string) (items : list string) : string :=
  match items with
  | [] => ""
  | [x] => x
  | x :: rest => x +:+ sep +:+ join sep rest
  end.

(** [str.isspace] on one character: TAB, LF, VT, FF, CR, the four
    separators FS, GS, RS, US, the space, NEL and the no-break space. *)
Definition is_space (c : ascii) : bool :=
  let n := nat_of_ascii c in
  ((9 <=? n) && (n <=? 13)) || ((28 <=? n) && (n <=? 32))
  || (n =? 133) || (n =? 160).

(** [s.lstrip()] *)
Fixpoint lstrip (s : string) : string :=
  match s with
  | "" => ""
  | String c s' => if is_space c then lstrip s' else s
  end.

(** [s.rstrip()] *)
Fixpoint rstrip (s : string) : string :=
  match s with
  | "" => ""
  | String c s' =>
      match rstrip s' with
      | "" => if is_space c then "" else String c ""
      | r => String c r
      end
  end.

(** [s.strip()] *)
Definition strip (s : string) : string := rstrip (lstrip s).

(** [str.lower] on one character: A..Z and the capital letters of
    U+00C0..U+00DE (the multiplication sign U+00D7 apart) move up by 32. *)
Definition lower_char (c : ascii) : ascii :=
  let n := nat_of_ascii c in
  if ((65 <=? n) && (n <=? 90))
     || ((192 <=? n) && (n <=? 222) && negb (n =? 215))
  then ascii_of_nat (n + 32) else c.

(** [s.lower()] *)
Fixpoint lower (s : string) : string :=
  match s with
  | "" => ""
  | String c s' => String (lower_char c) (lower s')
  end.

(** [x in items] for a list of strings. *)
Definition elem (x : string) (items : list string) : bool :=
  existsb (String.eqb x) items.

(** Truth value of a string: [if s]. *)
Definition truthy (s : string) : bool :=
  match s with "" => false | _ => true end.

(** [s.startswith(p)] *)
Fixpoint startswith (p s : string) : bool :=
  match p, s with
  | "", _ => true
  | String a p', String b s' => Ascii.eqb a b && startswith p' s'
  | String _ _, "" => false
  end.

(** [s.count(p)] with overlapping occurrences: the number of positions
    of [s] at which [p] starts. *)
Fixpoint occurrences (p s : string) : nat :=
  (if startswith p s then 1 else 0) +
  match s with
  | "" => 0
  | String _ s' => occurrences p s'
  end.

(** [p in s] *)
Definition contains (p s : string) : bool := 0 <? occurrences p s.

End PyStr.
Import PyStr.

(* ===================================================================== *)
(** ** generate_recipe_prompt *)
(* ===================================================================== *)

(** The eight spaces that indent every line of the template. *)
Definition indent : string := "        ".

(** The template up to the ingredient list. *)
Definition prompt_head : string :=
  nl +:+ indent +:+ "Create a detailed recipe using the following ingredients: ".

(** The template after the two preference lines: the eight points asked
    for and the closing remarks. *)
Definition prompt_request : string :=
  nl +:+ indent +:+
  nl +:+ indent +:+ "Please provide:" +:+
  nl +:+ indent +:+ "1. Recipe name" +:+
  nl +:+ indent +:+ "2. Cooking time (prep + cook)" +:+
  nl +:+ indent +:+ "3. Servings" +:+
  nl +:+ indent +:+ "4. Complete ingredients list (including quantities and any additional ingredients needed)" +:+
  nl +:+ indent +:+ "5. Step-by-step cooking instructions" +:+
  nl +:+ indent +:+ "6. Difficulty level (Easy/Medium/Hard)" +:+
  nl +:+ indent +:+ "7. Nutritional highlights" +:+
  nl +:+ indent +:+ "8. Tips for best results" +:+
  nl +:+ indent +:+
  nl +:+ indent +:+ "Make the recipe practical and delicious. If some common pantry staples (salt, pepper, oil, etc.) are needed but not listed, include them in the ingredients with quantities." +:+
  nl +:+ indent +:+
  nl +:+ indent +:+ "Format the response in a clear, organized manner." +:+
  nl +:+ indent.

(** The template after the ingredient list; the two preferences are
    already rendered. *)
Definition prompt_tail (dietary_shown cuisine_shown : string) : string :=
  nl +:+ indent +:+
  nl +:+ indent +:+ "Additional preferences:" +:+
  nl +:+ indent +:+ "- Dietary restrictions: " +:+ dietary_shown +:+
  nl +:+ indent +:+ "- Cuisine type: " +:+ cuisine_shown +:+
  prompt_request.

Definition generate_recipe_prompt
    (ingredients : list string) (dietary_restrictions cuisine_type : string)
    : string :=
  let ingredients_str := join ", " ingredients in
  prompt_head +:+ ingredients_str +:+
  prompt_tail
    (if truthy dietary_restrictions then dietary_restrictions else "None")
    (if truthy cuisine_type then cuisine_type else "Any").

(* ===================================================================== *)
(** ** datetime: the two renderings the program asks for *)
(* ===================================================================== *)

Module PyTime.

(** A [datetime.datetime] value, as returned by [datetime.now()]. *)
Record datetime := {
  year : N; month : N; day : N;
  hour : N; minute : N; second : N; microsecond : N
}.

Definition digit (n : N) : ascii := ascii_of_N (48 + n mod 10).

Fixpoint decimal_fuel (fuel : nat) (n : N) : string :=
  match fuel with
  | O => ""
  | S f =>
      (if (n <? 10)%N then "" else decimal_fuel f (n / 10)) +:+ String (digit n) ""
  end.

(** [str(n)] for a natural number: a number has no more decimal digits
    than binary ones, so the fuel suffices (lemma [decimal_unfold]). *)
Definition decimal (n : N) : string :=
  decimal_fuel (S (S (N.to_nat (N.log2 n)))) n.

(** [s.zfill(width)], the padding of ["%0<width>d"]. *)
Definition zfill (width : nat) (s : string) : string :=
  repeat_str "0" (width - String.length s) +:+ s.

(** [dt.isoformat()]: the fraction is left out when it is zero. *)
Definition isoformat (dt : datetime) : string :=
  zfill 4 (decimal (year dt)) +:+ "-" +:+ zfill 2 (decimal (month dt)) +:+ "-" +:+
  zfill 2 (decimal (day dt)) +:+ "T" +:+
  zfill 2 (decimal (hour dt)) +:+ ":" +:+ zfill 2 (decimal (minute dt)) +:+ ":" +:+
  zfill 2 (decimal (second dt)) +:+
  (if (microsecond dt =? 0)%N then ""
   else "." +:+ zfill 6 (decimal (microsecond dt))).

(** [dt.strftime("%Y%m%d_%H%M%S")]; the C library prints [%Y] without
    padding. *)
Definition strftime_stamp (dt : datetime) : string :=
  decimal (year dt) +:+ zfill 2 (decimal (month dt)) +:+
  zfill 2 (decimal (day dt)) +:+ "_" +:+
  zfill 2 (decimal (hour dt)) +:+ zfill 2 (decimal (minute dt)) +:+
  zfill 2 (decimal (second dt)).

(** What [datetime.now()] can return on a running system: a calendar
    date of a four-digit year and a time of day. *)
Definition plausible (dt : datetime) : Prop :=
  (1000 <= year dt <= 9999 /\ 1 <= month dt <= 12 /\ 1 <= day dt <= 31 /\
   hour dt <= 23 /\ minute dt <= 59 /\ second dt <= 59 /\
   microsecond dt <= 999999)%N.

End PyTime.
Import PyTime.

(* ===================================================================== *)
(** ** The world the program runs in *)
(* ===================================================================== *)

(** Python exceptions, by the only distinction the program makes:
    [KeyboardInterrupt] against the subclasses of [Exception], which carry
    the text [str(e)].  ([SystemExit] and [GeneratorExit], which nothing
    the program calls raises, are left out.) *)
Inductive exn :=
  | KeyboardInterrupt
  | Exception (msg : string).

(** What a call of [input()] meets at the keyboard: a line (without its
    line feed), Ctrl-C, or Ctrl-D. *)
Inductive keyboard :=
  | Line (s : string)
  | CtrlC
  | CtrlD.

(** The object [generate_content] returns: reading [response.text] gives
    the text, or raises (a [ValueError] when the answer holds no text). *)
Inductive response :=
  | HasText (s : string)
  | NoText (msg : string).

(** What [self.model.generate_content(prompt)] comes to: a response, or
    the exception the call raised. *)
Inductive reply :=
  | Returns (r : response)
  | Fails (e : exn).

(** What the program does to the outside, in order. *)
Inductive event :=
  | Printed (s : string)          (* print(s) *)
  | Prompted (s : string)         (* the prompt of input(s) *)
  | Requested (prompt : string)   (* generate_content(prompt) *)
  | Opened (path : string).       (* open(path, 'w') *)

Record world := {
  stdin  : list keyboard;             (* what is still to come at the keyboard *)
  trace  : list event;                (* what happened so far, oldest first *)
  gemini : nat -> string -> reply;    (* the service: call number, prompt *)
  calls  : nat;                       (* calls of the service so far *)
  clock  : nat -> datetime;           (* the n-th reading of datetime.now() *)
  ticks  : nat;                       (* readings of the clock so far *)
  files  : gmap string string;        (* path to content *)
  disk   : list (option exn)          (* what the coming file operations raise *)
}.

Definition with_stdin (w : world) (k : list keyboard) : world :=
  {| stdin := k; trace := trace w; gemini := gemini w; calls := calls w;
     clock := clock w; ticks := ticks w; files := files w; disk := disk w |}.

Definition log (ev : event) (w : world) : world :=
  {| stdin := stdin w; trace := trace w ++ [ev]; gemini := gemini w;
     calls := calls w; clock := clock w; ticks := ticks w; files := files w;
     disk := disk w |}.

Definition with_calls (w : world) (n : nat) : world :=
  {| stdin := stdin w; trace := trace w; gemini := gemini w; calls := n;
     clock := clock w; ticks := ticks w; files := files w; disk := disk w |}.

Definition with_ticks (w : world) (n : nat) : world :=
  {| stdin := stdin w; trace := trace w; gemini := gemini w; calls := calls w;
     clock := clock w; ticks := n; files := files w; disk := disk w |}.

Definition with_files (w : world) (fs : gmap string string)
    (d : list (option exn)) : world :=
  {| stdin := stdin w; trace := trace w; gemini := gemini w; calls := calls w;
     clock := clock w; ticks := ticks w; files := fs; disk := d |}.

(* ===================================================================== *)
(** ** Computations: state passing with exceptions *)
(* ===================================================================== *)

Inductive result (A : Type) :=
  | Ok (a : A)
  | Raise (e : exn).
Arguments Ok {A} a.
Arguments Raise {A} e.

Definition M (A : Type) : Type := world -> result A * world.

Definition ret {A} (a : A) : M A := fun w => (Ok a, w).

Definition raise {A} (e : exn) : M A := fun w => (Raise e, w).

Definition bind {A B} (m : M A) (f : A -> M B) : M B :=
  fun w =>
    match m w with
    | (Ok a, w') => f a w'
    | (Raise e, w') => (Raise e, w')
    end.

Declare Scope py_scope.
Delimit Scope py_scope with py.
Notation "x <- m ;; k" := (bind m (fun x => k))
  (at level 100, m at next level, right associativity) : py_scope.
Notation "m ;;; k" := (bind m (fun _ => k))
  (at level 100, right associativity) : py_scope.
Local Open Scope py_scope.

(** [try: body  except Exception as e: handler(str(e))]: a
    [KeyboardInterrupt] passes through. *)
Definition try_except {A} (body : M A) (handler : string -> M A) : M A :=
  fun w =>
    match body w with
    | (Raise (Exception msg), w') => handler msg w'
    | other => other
    end.

(** [try: body  except KeyboardInterrupt: on_interrupt
     except Exception as e: handler(str(e))] *)
Definition try_except2 {A} (body : M A) (on_interrupt : M A)
    (handler : string -> M A) : M A :=
  fun w =>
    match body w with
    | (Ok a, w') => (Ok a, w')
    | (Raise KeyboardInterrupt, w') => on_interrupt w'
    | (Raise (Exception msg), w') => handler msg w'
    end.

(** *** The primitives *)

Definition print (s : string) : M unit :=
  fun w => (Ok tt, log (Printed s) w).

(** [str(EOFError)] as [input] raises it. *)
Definition eof_message : string := "EOF when reading a line".

(** [input(prompt)]: shows the prompt, then takes what comes next at the
    keyboard; a closed or ended input raises [EOFError]. *)
Definition input (prompt : string) : M string :=
  fun w =>
    let w1 := log (Prompted prompt) w in
    match stdin w with
    | [] => (Raise (Exception eof_message), w1)
    | Line s :: rest => (Ok s, with_stdin w1 rest)
    | CtrlC :: rest => (Raise KeyboardInterrupt, with_stdin w1 rest)
    | CtrlD :: rest => (Raise (Exception eof_message), with_stdin w1 rest)
    end.

(** [datetime.now()] *)
Definition now : M datetime :=
  fun w => (Ok (clock w (ticks w)), with_ticks w (S (ticks w))).

(** [self.model.generate_content(prompt)] *)
Definition generate_content (prompt : string) : M response :=
  fun w =>
    let w1 := with_calls (log (Requested prompt) w) (S (calls w)) in
    match gemini w (calls w) prompt with
    | Returns r => (Ok r, w1)
    | Fails e => (Raise e, w1)
    end.

(** [response.text] *)
Definition text (r : response) : M string :=
  match r with
  | HasText s => ret s
  | NoText msg => raise (Exception msg)
  end.

(** One file operation meets the next entry of [disk]; with none left the
    operation goes through. *)
Definition next_fault (d : list (option exn)) : option exn * list (option exn) :=
  match d with
  | [] => (None, [])
  | x :: rest => (x, rest)
  end.

(** [open(path, 'w')]: creates or empties the file. *)
Definition open_w (path : string) : M unit :=
  fun w =>
    let w1 := log (Opened path) w in
    match next_fault (disk w) with
    | (Some e, d) => (Raise e, with_files w1 (files w) d)
    | (None, d) => (Ok tt, with_files w1 (<[path := ""]> (files w)) d)
    end.

(** [f.write(s)] on the file opened at [path]. *)
Definition write (path s : string) : M unit :=
  fun w =>
    match next_fault (disk w) with
    | (Some e, d) => (Raise e, with_files w (files w) d)
    | (None, d) =>
        (Ok tt, with_files w (<[path := default "" (files w !! path) +:+ s]> (files w)) d)
    end.

(** [d[key]] on a dict whose entry for [key] is [field]: a missing key
    raises [KeyError], whose text is the quoted key. *)
Definition getitem {A} (key : string) (field : option A) : M A :=
  match field with
  | Some v => ret v
  | None => raise (Exception ("'" +:+ key +:+ "'"))
  end.

(* ===================================================================== *)
(** ** The program: class RecipeCookbook *)
(* ===================================================================== *)

(** The pictograms of the messages, as the source file spells them. *)
Definition glyph_pan : string := "üç≥".
Definition glyph_cross : string := "‚ùå".
Definition glyph_folder : string := "üìÅ".
Definition glyph_plate : string := "üçΩÔ∏è".
Definition glyph_floppy : string := "üíæ".
Definition glyph_again : string := "üîÑ".
Definition glyph_wave : string := "üëã".
Definition glyph_sparkles : string := "‚ú®".

(** The result dict of [generate_recipe]: every key the program stores,
    present ([Some]) or absent ([None]). *)
Record recipe_dict := {
  timestamp : option string;
  input_ingredients : option (list string);
  dietary_restrictions : option string;
  cuisine_type : option string;
  generated_recipe : option string;
  error : option string;
  status : option string
}.

(** [if d.get(key)] for a string entry: present and not empty. *)
Definition get_truthy (field : option string) : bool :=
  match field with
  | Some s => truthy s
  | None => false
  end.

(** [self.recipes_folder], set by [__init__]. *)
Definition recipes_folder : string := "generated_recipes".

(** *** get_ingredients_from_user *)

(** One round of the [while True] loop; [again] is the loop itself. *)
Definition ingredient_step (again : list string -> M (list string))
    (ingredients : list string) : M (list string) :=
  line <- input "Ingredient: " ;;
  let ingredient := strip line in
  if String.eqb ingredient "" then
    match ingredients with
    | _ :: _ => ret ingredients
    | [] => print "Please enter at least one ingredient." ;;; again ingredients
    end
  else again (ingredients ++ [ingredient]).

(** The loop, unrolled once per keyboard event still to come: a round
    either returns, raises, or takes one event, so that with [fuel] at
    least the length of [stdin] the last round cannot reach [again]
    (lemma [ingredient_loop_unfold]). *)
Fixpoint ingredient_loop (fuel : nat) : list string -> M (list string) :=
  match fuel with
  | O => ingredient_step (fun ingredients => ret ingredients)
  | S f => ingredient_step (ingredient_loop f)
  end.

(** The loop entered with [ingredients] collected so far. *)
Definition collecting (ingredients : list string) : M (list string) :=
  fun w => ingredient_loop (length (stdin w)) ingredients w.

Definition get_ingredients_from_user : M (list string) :=
  print (nl +:+ "=== AI Recipe Cookbook ===") ;;;
  print "Enter your ingredients (one per line, press Enter twice when done):" ;;;
  collecting [].

(** *** generate_recipe *)

Definition generate_recipe (ingredients : list string)
    (dietary cuisine : string) : M recipe_dict :=
  try_except
    (let prompt := generate_recipe_prompt ingredients dietary cuisine in
     print (nl +:+ glyph_pan +:+ " Generating recipe with AI...") ;;;
     response <- generate_content prompt ;;
     dt <- now ;;
     recipe_text <- text response ;;
     ret {| timestamp := Some (isoformat dt);
            input_ingredients := Some ingredients;
            dietary_restrictions := Some dietary;
            cuisine_type := Some cuisine;
            generated_recipe := Some recipe_text;
            error := None;
            status := Some "success" |})
    (fun e =>
     print (glyph_cross +:+ " Error generating recipe: " +:+ e) ;;;
     dt <- now ;;
     ret {| timestamp := Some (isoformat dt);
            input_ingredients := Some ingredients;
            dietary_restrictions := None;
            cuisine_type := None;
            generated_recipe := None;
            error := Some e;
            status := Some "error" |}).

(** *** save_recipe *)

Definition save_recipe (recipe_data : recipe_dict) : M string :=
  dt <- now ;;
  let stamp := strftime_stamp dt in
  let filename := "recipe_" +:+ stamp +:+ ".txt" in
  let filepath := recipes_folder +:+ "/" +:+ filename in
  try_except
    (open_w filepath ;;;
     write filepath ("=== AI Generated Recipe ===" +:+ nl +:+ nl) ;;;
     ts <- getitem "timestamp" (timestamp recipe_data) ;;
     write filepath ("Generated on: " +:+ ts +:+ nl) ;;;
     items <- getitem "input_ingredients" (input_ingredients recipe_data) ;;
     write filepath ("Input ingredients: " +:+ join ", " items +:+ nl) ;;;
     (if get_truthy (dietary_restrictions recipe_data) then
        d <- getitem "dietary_restrictions" (dietary_restrictions recipe_data) ;;
        write filepath ("Dietary restrictions: " +:+ d +:+ nl)
      else ret tt) ;;;
     (if get_truthy (cuisine_type recipe_data) then
        c <- getitem "cuisine_type" (cuisine_type recipe_data) ;;
        write filepath ("Cuisine type: " +:+ c +:+ nl)
      else ret tt) ;;;
     write filepath (nl +:+ repeat_str "=" 50 +:+ nl +:+ nl) ;;;
     st <- getitem "status" (status recipe_data) ;;
     (if String.eqb st "success" then
        g <- getitem "generated_recipe" (generated_recipe recipe_data) ;;
        write filepath g
      else
        e <- getitem "error" (error recipe_data) ;;
        write filepath ("Error: " +:+ e)) ;;;
     print (glyph_folder +:+ " Recipe saved to: " +:+ filepath) ;;;
     ret filename)
    (fun e =>
     print (glyph_cross +:+ " Error saving recipe: " +:+ e) ;;;
     ret "").

(** *** get_additional_preferences *)

Definition get_additional_preferences : M (string * string) :=
  print (nl +:+ "--- Additional Preferences (optional) ---") ;;;
  d <- input "Any dietary restrictions? (vegetarian, vegan, gluten-free, etc.): " ;;
  let dietary := strip d in
  c <- input "Preferred cuisine type? (Italian, Indian, Mexican, etc.): " ;;
  let cuisine := strip c in
  ret (dietary, cuisine).

(** *** display_recipe *)

Definition display_recipe (recipe_data : recipe_dict) : M unit :=
  print (nl +:+ repeat_str "=" 60) ;;;
  print (glyph_plate +:+ "  YOUR GENERATED RECIPE") ;;;
  print (repeat_str "=" 60) ;;;
  st <- getitem "status" (status recipe_data) ;;
  (if String.eqb st "success" then
     g <- getitem "generated_recipe" (generated_recipe recipe_data) ;;
     print g
   else
     e <- getitem "error" (error recipe_data) ;;
     print (glyph_cross +:+ " Error: " +:+ e)) ;;;
  print (repeat_str "=" 60).

(** *** run_interactive_mode *)

(** How one round of [while True] ends: [break], or on to the next round
    (by falling off the end of the body or by [continue]). *)
Inductive control := Break | Continue.

Definition save_prompt : string :=
  nl +:+ glyph_floppy +:+ " Save this recipe? (y/n): ".

Definition continue_prompt : string :=
  glyph_again +:+ " Generate another recipe? (y/n): ".

Definition farewell : string :=
  nl +:+ nl +:+ glyph_wave +:+ " Thanks for using AI Recipe Cookbook!".

(** The answer to a y/n question: [answer.lower().strip() in ['y', 'yes']]. *)
Definition says_yes (answer : string) : bool :=
  elem (strip (lower answer)) ["y"; "yes"].

(** The block under [# Save recipe]. *)
Definition offer_save (recipe_data : recipe_dict) : M unit :=
  st <- getitem "status" (status recipe_data) ;;
  if String.eqb st "success" then
    save_option <- input save_prompt ;;
    if says_yes save_option then
      _ <- save_recipe recipe_data ;; ret tt
    else ret tt
  else ret tt.

(** The block under [# Continue or exit]. *)
Definition continue_or_exit : M control :=
  print (nl +:+ repeat_str "-" 40) ;;;
  continue_option <- input continue_prompt ;;
  if negb (says_yes continue_option) then ret Break else ret Continue.

(** The body of the [try] inside the loop. *)
Definition iteration : M control :=
  ingredients <- get_ingredients_from_user ;;
  prefs <- get_additional_preferences ;;
  recipe_data <- generate_recipe ingredients prefs.1 prefs.2 ;;
  display_recipe recipe_data ;;;
  offer_save recipe_data ;;;
  continue_or_exit.

(** One round of [while True]: the [try] with its two handlers. *)
Definition loop_body : M control :=
  try_except2 iteration
    (print farewell ;;; ret Break)
    (fun e => print (glyph_cross +:+ " Unexpected error: " +:+ e) ;;; ret Continue).

(** The [while True] loop, for at most [fuel] rounds; [None] when the
    rounds run out before the loop is left. *)
Fixpoint session_loop (fuel : nat) (w : world) : option (result unit * world) :=
  match fuel with
  | O => None
  | S n =>
      match loop_body w with
      | (Ok Continue, w') => session_loop n w'
      | (Ok Break, w') => Some (Ok tt, w')
      | (Raise e, w') => Some (Raise e, w')
      end
  end.

Definition happy_cooking : string :=
  "Happy cooking! " +:+ glyph_pan +:+ glyph_sparkles.

Definition run_interactive_mode (fuel : nat) (w : world)
    : option (result unit * world) :=
  match (print (glyph_pan +:+ " Welcome to AI Recipe Cookbook!") ;;;
         print "Generate recipes from your ingredients using Google's Gemini AI") w with
  | (Ok _, w0) =>
      match session_loop fuel w0 with
      | Some (Ok _, w1) => Some (print happy_cooking w1)
      | other => other
      end
  | (Raise e, w0) => Some (Raise e, w0)
  end.

(* ===================================================================== *)
(** ** The vocabulary of the statements *)
(* ===================================================================== *)

(** The two dicts [generate_recipe] builds. *)
Definition success_result (ts : string) (ingredients : list string)
    (dietary cuisine recipe_text : string) : recipe_dict :=
  {| timestamp := Some ts; input_ingredients := Some ingredients;
     dietary_restrictions := Some dietary; cuisine_type := Some cuisine;
     generated_recipe := Some recipe_text; error := None;
     status := Some "success" |}.

Definition failure_result (ts : string) (ingredients : list string)
    (message : string) : recipe_dict :=
  {| timestamp := Some ts; input_ingredients := Some ingredients;
     dietary_restrictions := None; cuisine_type := None;
     generated_recipe := None; error := Some message;
     status := Some "error" |}.

(** The outcome the specification promises of every call: no exception,
    and a success with a text that is not empty or a failure with a
    message that is not empty. *)
Definition nonempty_outcome (x : result recipe_dict) : Prop :=
  match x with
  | Ok r =>
      (status r = Some "success" /\
       exists t, generated_recipe r = Some t /\ t <> "") \/
      (status r = Some "error" /\
       exists m, error r = Some m /\ m <> "")
  | Raise _ => False
  end.

(** A round up to the question whether to go on: the body of the [try]
    without its last block (lemma [iteration_split]). *)
Definition before_question : M unit :=
  ingredients <- get_ingredients_from_user ;;
  prefs <- get_additional_preferences ;;
  recipe_data <- generate_recipe ingredients prefs.1 prefs.2 ;;
  display_recipe recipe_data ;;;
  offer_save recipe_data.

(** A round up to the saving phase: the body of the [try] as far as the
    display, giving the dict it made (lemma [iteration_from_saving]). *)
Definition before_saving : M recipe_dict :=
  ingredients <- get_ingredients_from_user ;;
  prefs <- get_additional_preferences ;;
  recipe_data <- generate_recipe ingredients prefs.1 prefs.2 ;;
  display_recipe recipe_data ;;;
  ret recipe_data.

(** An entry of the list: not empty, and trimmed. *)
Definition entry_ok (x : string) : Prop := x <> "" /\ strip x = x.

(** The prompts sent to the service, in order. *)
Definition requests (tr : list event) : list string :=
  flat_map (fun ev => match ev with Requested p => [p] | _ => [] end) tr.

(** No file operation to come raises. *)
Definition no_fault (d : list (option exn)) : bool :=
  forallb (fun f => match f with None => true | Some _ => false end) d.

(** The name and the path [save_recipe] builds from a reading of the clock. *)
Definition filename_at (dt : datetime) : string :=
  "recipe_" +:+ strftime_stamp dt +:+ ".txt".

Definition filepath_at (dt : datetime) : string :=
  recipes_folder +:+ "/" +:+ filename_at dt.

(** The file format of section 6 of the specification, line by line; the
    two preference lines are there only for a value that is not empty. *)
Definition artifact_format (timestamp : string) (ingredients : list string)
    (dietary cuisine body : string) : string :=
  "=== AI Generated Recipe ===" +:+ nl +:+
  nl +:+
  "Generated on: " +:+ timestamp +:+ nl +:+
  "Input ingredients: " +:+ join ", " ingredients +:+ nl +:+
  (if truthy dietary then "Dietary restrictions: " +:+ dietary +:+ nl else "") +:+
  (if truthy cuisine then "Cuisine type: " +:+ cuisine +:+ nl else "") +:+
  nl +:+
  repeat_str "=" 50 +:+ nl +:+
  nl +:+
  body.

(** The pattern [recipe_<YYYYMMDD_HHMMSS>.txt] of the specification, read
    from left to right. *)
Definition is_digit (c : ascii) : bool :=
  (48 <=? nat_of_ascii c) && (nat_of_ascii c <=? 57).

Fixpoint all_digits (s : string) : bool :=
  match s with
  | "" => true
  | String c s' => is_digit c && all_digits s'
  end.

(** What is left of [s] after the literal [p], if [s] starts with it. *)
Fixpoint eat (p s : string) : option string :=
  match p, s with
  | "", _ => Some s
  | String a p', String b s' => if Ascii.eqb a b then eat p' s' else None
  | String _ _, "" => None
  end.

(** What is left of [s] after [n] digits, if [s] starts with them. *)
Fixpoint eat_digits (n : nat) (s : string) : option string :=
  match n, s with
  | O, _ => Some s
  | S k, String c s' => if is_digit c then eat_digits k s' else None
  | S _, "" => None
  end.

Definition matches_recipe_pattern (s : string) : bool :=
  match eat "recipe_" s with
  | Some s1 =>
      match eat_digits 8 s1 with
      | Some s2 =>
          match eat "_" s2 with
          | Some s3 =>
              match eat_digits 6 s3 with
              | Some s4 => String.eqb s4 ".txt"
              | None => false
              end
          | None => false
          end
      | None => false
      end
  | None => false
  end.

(** A failure value that describes the failure: it is not empty and
    holds the text of the error. *)
Definition descriptive_failure (x : result string) (msg : string) : Prop :=
  exists v, x = Ok v /\ v <> "" /\ contains msg v = true.

(** [stable R m]: running [m] takes every world to one related by [R]. *)
Definition stable {A} (R : relation world) (m : M A) : Prop :=
  forall w, R w (m w).2.

(** [m] returns nothing but [v], and then [ev] is the last thing that
    happened. *)
Definition returns_after {A} (v : A) (ev : event) (m : M A) : Prop :=
  forall w a w', m w = (Ok a, w') -> a = v /\ last (trace w') = Some ev.

(** The file operations of [save_recipe] on a dict of [generate_recipe]:
    the [open], and the [write]s of the title, of the timestamp, of the
    ingredients, of each preference that is not empty, of the rule and of
    the text. *)
Definition file_operations (r : recipe_dict) : nat :=
  6 + (if get_truthy (dietary_restrictions r) then 1 else 0)
    + (if get_truthy (cuisine_type r) then 1 else 0).

(** [m] meets the faults of the disk in order: it takes entries from the
    front of [disk], one for each file operation, and a fault among them
    is the last entry taken and is what [m] raises. *)
Definition meets_faults {A} (m : M A) : Prop :=
  forall w, exists used,
    disk w = used ++ disk (m w).2 /\
    (no_fault used = true \/
     exists pre e, used = pre ++ [Some e] /\ no_fault pre = true /\ (m w).1 = Raise e).

(** The keyboard input is where it was. *)
Definition same_keys : relation world := fun w w' => stdin w' = stdin w.

(** The service is where it was. *)
Definition same_service : relation world :=
  fun w w' => gemini w' = gemini w /\ calls w' = calls w.

(** The question whether to save. *)
Definition is_save_prompt (ev : event) : bool :=
  match ev with
  | Prompted s => String.eqb s save_prompt
  | _ => false
  end.

(** An [open]. *)
Definition is_open (ev : event) : bool :=
  match ev with
  | Opened _ => true
  | _ => false
  end.

(** The two marks of the saving phase: its question, and the file. *)
Definition is_save_event (ev : event) : bool := is_save_prompt ev || is_open ev.

(** [quiet bad w w']: from [w] to [w'] the files stayed as they were and
    none of the events that came is [bad]. *)
Definition quiet (bad : event -> bool) : relation world :=
  fun w w' =>
    files w' = files w /\
    exists evs, trace w' = trace w ++ evs /\
                forallb (fun ev => negb (bad ev)) evs = true.

(** The trace went on from where it was. *)
Definition grows : relation world :=
  fun w w' => exists evs, trace w' = trace w ++ evs.

(** A key that [input] returns as a line. *)
Definition is_line (k : keyboard) : bool :=
  match k with
  | Line _ => true
  | _ => false
  end.

(** [took used x]: the keys [used] were taken in order and the outcome was
    [x]; a key that is not a line is the last one taken and decides the
    outcome. *)
Inductive took {A} : list keyboard -> result A -> Prop :=
  | took_lines used x :
      forallb is_line used = true -> took used x
  | took_interrupt pre :
      forallb is_line pre = true -> took (pre ++ [CtrlC]) (Raise KeyboardInterrupt)
  | took_eof pre msg :
      forallb is_line pre = true -> took (pre ++ [CtrlD]) (Raise (Exception msg)).

(** [m] takes keys from the front of the keyboard input, in that way. *)
Definition reads {A} (m : M A) : Prop :=
  forall w, exists used, stdin w = used ++ stdin (m w).2 /\ took used (m w).1.

(** [m] takes at least one key when there is one. *)
Definition takes_one {A} (m : M A) : Prop :=
  forall w, stdin w <> [] -> length (stdin (m w).2) < length (stdin w).

(** A reading of the clock and a world for the examples: the keys to
    come, what the service answers to every call, and the faults of the
    disk. *)
Definition sample_time : datetime :=
  {| year := 2024; month := 3; day := 9;
     hour := 7; minute := 5; second := 0; microsecond := 1234 |}.

Definition sample_world (keys : list keyboard) (answer : reply)
    (faults : list (option exn)) : world :=
  {| stdin := keys; trace := []; gemini := fun _ _ => answer; calls := 0;
     clock := fun _ => sample_time; ticks := 0; files := ∅; disk := faults |}.

(* ===================================================================== *)
(** ** The constructor and main *)
(* ===================================================================== *)

(** What the constructor meets outside the session: the environment
    variables (as [load_dotenv] left them), the key last given to
    [genai.configure], the model names [genai.GenerativeModel] accepts
    (for the others it raises), the directories, and the text of the
    [OSError] that [os.makedirs] raises, if it does. *)
Record host := {
  environ : gmap string string;
  configured : option string;
  accepts : string -> bool;
  dirs : gset string;
  makedirs_fault : option string
}.

(** The object the constructor builds: [self.model] (by the name it was
    made from) and [self.recipes_folder]. *)
Record cookbook := {
  model : string;
  folder : string
}.

(** What the constructor raises, by the distinction [main] makes. *)
Inductive startup_error :=
  | ValueError (msg : string)
  | OtherError (msg : string).

Definition missing_key_message : string :=
  "Please provide a Gemini API key or set GEMINI_API_KEY environment variable".

Definition no_model_message : string :=
  "Could not initialize free Gemini model. Please check your API key.".

(** [genai.configure(api_key=key)] *)
Definition configure (key : string) (h : host) : host :=
  {| environ := environ h; configured := Some key; accepts := accepts h;
     dirs := dirs h; makedirs_fault := makedirs_fault h |}.

(** [os.makedirs(path, exist_ok=True)] *)
Definition makedirs (path : string) (h : host) : (unit + startup_error) * host :=
  match makedirs_fault h with
  | Some msg => (inr (OtherError msg), h)
  | None =>
      (inl tt,
       {| environ := environ h; configured := configured h; accepts := accepts h;
          dirs := {[path]} ∪ dirs h; makedirs_fault := makedirs_fault h |})
  end.

(** [RecipeCookbook.__init__(self, api_key)]; [None] is the default
    argument. *)
Definition init (api_key : option string) (h : host)
    : (cookbook + startup_error) * host :=
  let api_key :=
    match api_key with
    | None => environ h !! "GEMINI_API_KEY"
    | Some k => Some k
    end in
  if get_truthy api_key then
    let h1 := configure (default "" api_key) h in
    let chosen :=
      if accepts h1 "gemini-1.5-flash-latest" then Some "gemini-1.5-flash-latest"
      else if accepts h1 "gemini-1.5-flash" then Some "gemini-1.5-flash"
      else if accepts h1 "models/gemini-1.5-flash" then Some "models/gemini-1.5-flash"
      else None in
    match chosen with
    | None => (inr (ValueError no_model_message), h1)
    | Some name =>
        match makedirs "generated_recipes" h1 with
        | (inl _, h2) => (inl {| model := name; folder := "generated_recipes" |}, h2)
        | (inr e, h2) => (inr e, h2)
        end
    end
  else (inr (ValueError missing_key_message), h).

(** What [main] prints for a [ValueError]. *)
Definition configuration_help (e : string) : M unit :=
  print (glyph_cross +:+ " Configuration Error: " +:+ e) ;;;
  print (nl +:+ "To fix this:") ;;;
  print "1. Get your Gemini API key from: https://makersuite.google.com/app/apikey" ;;;
  print "2. Set it as environment variable: export GEMINI_API_KEY='your_api_key_here'" ;;;
  print "3. Or modify the code to pass the API key directly".

(** [main()], the session running for at most [fuel] rounds.  The type
    [exn] does not tell a [ValueError] of the session from its other
    exceptions; with [print] total, as it is here, the session raises
    none (lemma [run_interactive_mode_ok]), so the branch for one is
    written with the plain handler. *)
Definition main (fuel : nat) (h : host) (w : world)
    : option (result unit * world) * host :=
  match init None h with
  | (inl _, h') =>
      match run_interactive_mode fuel w with
      | Some (Raise (Exception e), w') =>
          (Some (print (glyph_cross +:+ " Error: " +:+ e) w'), h')
      | other => (other, h')
      end
  | (inr (ValueError e), h') => (Some (configuration_help e w), h')
  | (inr (OtherError e), h') =>
      (Some (print (glyph_cross +:+ " Error: " +:+ e) w), h')
  end.

(* ===================================================================== *)
(** ** More vocabulary *)
(* ===================================================================== *)

(** A line that [strip] empties. *)
Definition is_blank (s : string) : bool := String.eqb (strip s) "".

(** All but the keyboard input and the trace is where it was. *)
Definition same_outside : relation world :=
  fun w w' =>
    gemini w' = gemini w /\ calls w' = calls w /\ clock w' = clock w /\
    ticks w' = ticks w /\ files w' = files w /\ disk w' = disk w.

(** What the ingredient loop shows for the lines it takes: its prompt for
    each, and its request after each blank one. *)
Definition ingredient_events (ls : list string) : list event :=
  flat_map (fun s =>
              if is_blank s
              then [Prompted "Ingredient: ";
                    Printed "Please enter at least one ingredient."]
              else [Prompted "Ingredient: "]) ls.

(** The three lines [display_recipe] starts with, and the rule it ends
    with. *)
Definition display_header : list event :=
  [Printed (nl +:+ repeat_str "=" 60);
   Printed (glyph_plate +:+ "  YOUR GENERATED RECIPE");
   Printed (repeat_str "=" 60)].

Definition display_rule : event := Printed (repeat_str "=" 60).

(** The files other than the one at [path] are as they were. *)
Definition off_path (path : string) : relation world :=
  fun w w' => forall p, p <> path -> files w' !! p = files w !! p.

(** A disk without faults to come stays one. *)
Definition healthy_kept : relation world :=
  fun w w' => no_fault (disk w) = true -> no_fault (disk w') = true.

(** Two readings of the clock in the same second. *)
Definition same_second (a b : datetime) : Prop :=
  year a = year b /\ month a = month b /\ day a = day b /\
  hour a = hour b /\ minute a = minute b /\ second a = second b.

(** The number a string of digits stands for: [int(s)]. *)
Definition digit_value (c : ascii) : N := (N_of_ascii c - 48)%N.

Fixpoint number_from (acc : N) (s : string) : N :=
  match s with
  | "" => acc
  | String c s' => number_from (10 * acc + digit_value c)%N s'
  end.

Definition number_of (s : string) : N := number_from 0 s.

(** The model names the constructor tries, in its order. *)
Definition model_names : list string :=
  ["gemini-1.5-flash-latest"; "gemini-1.5-flash"; "models/gemini-1.5-flash"].

(** The key the constructor works with: its argument, or for [None] the
    environment variable. *)
Definition key_of (api_key : option string) (h : host) : option string :=
  match api_key with
  | None => environ h !! "GEMINI_API_KEY"
  | Some k => Some k
  end.

(** A host for the examples: the value of the key in the environment,
    and the model names accepted. *)
Definition sample_host (key : string) (ok : string -> bool) : host :=
  {| environ := {["GEMINI_API_KEY" := key]}; configured := None; accepts := ok;
     dirs := ∅; makedirs_fault := None |}.

(* ===================================================================== *)
(** ** Facts about the string methods *)
(* ===================================================================== *)

Section StringFacts.

Lemma append_cons (c : ascii) (s t : string) :
  String c s +:+ t = String c (s +:+ t).
Proof. reflexivity. Qed.

Lemma append_nil_l (s : string) : "" +:+ s = s.
Proof. reflexivity. Qed.

Lemma append_nil_r (s : string) : s +:+ "" = s.
Proof. induction s as [|c s IH]; [reflexivity|]. rewrite append_cons, IH. reflexivity. Qed.

Lemma append_assoc (s t u : string) : (s +:+ t) +:+ u = s +:+ (t +:+ u).
Proof.
  induction s as [|c s IH]; [reflexivity|].
  rewrite !append_cons, IH. reflexivity.
Qed.

Lemma startswith_append (p s : string) : startswith p (p +:+ s) = true.
Proof.
  induction p as [|c p IH]; [reflexivity|].
  rewrite append_cons. simpl. rewrite Ascii.eqb_refl. exact IH.
Qed.

Lemma occurrences_here (p s : string) : 0 < occurrences p (p +:+ s).
Proof.
  destruct p as [|c p].
  - destruct s; simpl; lia.
  - rewrite append_cons. cbn [occurrences].
    rewrite <- append_cons, startswith_append. lia.
Qed.

Lemma occurrences_skip (p a s : string) :
  occurrences p s <= occurrences p (a +:+ s).
Proof.
  induction a as [|c a IH]; [reflexivity|].
  rewrite append_cons. cbn [occurrences]. lia.
Qed.

(** A string that sits somewhere inside another is found by [in]. *)
Lemma contains_inside (p a b : string) : contains p (a +:+ p +:+ b) = true.
Proof.
  unfold contains. apply Nat.ltb_lt.
  eapply Nat.lt_le_trans; [apply (occurrences_here p b)|apply occurrences_skip].
Qed.

Lemma contains_trans (p q a b : string) :
  contains p q = true -> contains p (a +:+ q +:+ b) = true.
Proof.
  unfold contains. rewrite !Nat.ltb_lt. intros H.
  eapply Nat.lt_le_trans; [exact H|].
  etransitivity; [|apply occurrences_skip].
  clear H. induction q as [|c q IH].
  - destruct p; simpl; [destruct b; simpl; lia|lia].
  - rewrite append_cons. cbn [occurrences].
    assert (Hs : (if startswith p (String c q) then 1 else 0)
                 <= (if startswith p (String c (q +:+ b)) then 1 else 0)).
    { destruct (startswith p (String c q)) eqn:E; [|lia].
      enough (startswith p (String c (q +:+ b)) = true) as -> by lia.
      rewrite <- append_cons. revert E. generalize (String c q) as s.
      clear. induction p as [|x p IHp]; intros [|y s]; simpl; try done.
      intros [-> Hp]%andb_prop. rewrite IHp by done. reflexivity. }
    lia.
Qed.

(** An item of a list sits inside the joined list. *)
Lemma join_inside (sep x : string) (items : list string) :
  x ∈ items -> exists a b, join sep items = a +:+ x +:+ b.
Proof.
  induction items as [|y items IH]; [by intros ?%elem_of_nil|].
  intros [->|Hin]%elem_of_cons.
  - destruct items as [|z items].
    + exists "", "". simpl. by rewrite append_nil_r.
    + exists "", (sep +:+ join sep (z :: items)). reflexivity.
  - destruct (IH Hin) as (a & b & E). destruct items as [|z items].
    + by apply elem_of_nil in Hin.
    + exists (y +:+ sep +:+ a), b.
      change (join sep (y :: z :: items)) with (y +:+ sep +:+ join sep (z :: items)).
      rewrite E, !append_assoc. reflexivity.
Qed.

(** *** strip *)

Lemma lstrip_head (s : string) (c : ascii) (r : string) :
  lstrip s = String c r -> is_space c = false.
Proof.
  induction s as [|x s IH]; [done|]. simpl.
  destruct (is_space x) eqn:E; [exact IH|]. by intros [= <- _].
Qed.

Lemma rstrip_head (c : ascii) (s : string) :
  rstrip (String c s) = "" \/ exists r, rstrip (String c s) = String c r.
Proof.
  simpl. destruct (rstrip s); [destruct (is_space c)|]; eauto.
Qed.

Lemma rstrip_idem (s : string) : rstrip (rstrip s) = rstrip s.
Proof.
  induction s as [|c s IH]; [done|]. simpl.
  destruct (rstrip s) as [|x r] eqn:E.
  - destruct (is_space c) eqn:Ec; [done|]. simpl. by rewrite Ec.
  - cbn [rstrip]. cbn [rstrip] in IH. rewrite IH. reflexivity.
Qed.

Lemma strip_head (s : string) (c : ascii) (r : string) :
  strip s = String c r -> is_space c = false.
Proof.
  unfold strip. destruct (lstrip s) as [|x t] eqn:E; [done|].
  destruct (rstrip_head x t) as [->|[r' ->]]; [done|].
  intros [= <- _]. eapply lstrip_head, E.
Qed.

(** What [strip] returns is trimmed: stripping it again changes nothing. *)
Lemma strip_idem (s : string) : strip (strip s) = strip s.
Proof.
  destruct (strip s) as [|c r] eqn:E; [done|].
  pose proof (strip_head _ _ _ E) as Hc.
  unfold strip at 1. simpl lstrip. rewrite Hc.
  rewrite <- E. unfold strip. apply rstrip_idem.
Qed.

(** *** lower *)

Lemma lower_char_idem (c : ascii) : lower_char (lower_char c) = lower_char c.
Proof. by destruct c as [[] [] [] [] [] [] [] []]. Qed.

Lemma lower_idem (s : string) : lower (lower s) = lower s.
Proof.
  induction s as [|c s IH]; [done|]. simpl. by rewrite lower_char_idem, IH.
Qed.

Lemma is_space_lower (c : ascii) : is_space (lower_char c) = is_space c.
Proof. by destruct c as [[] [] [] [] [] [] [] []]. Qed.

Lemma lower_lstrip (s : string) : lower (lstrip s) = lstrip (lower s).
Proof.
  induction s as [|c s IH]; [done|]. simpl. rewrite is_space_lower.
  by destruct (is_space c).
Qed.

Lemma lower_rstrip (s : string) : lower (rstrip s) = rstrip (lower s).
Proof.
  induction s as [|c s IH]; [done|]. simpl. rewrite <- IH, is_space_lower.
  destruct (rstrip s); [by destruct (is_space c)|done].
Qed.

Lemma lower_strip (s : string) : lower (strip s) = strip (lower s).
Proof. unfold strip. by rewrite lower_rstrip, lower_lstrip. Qed.

End StringFacts.

(* ===================================================================== *)
(** ** The decimal rendering of a number *)
(* ===================================================================== *)

Section Decimal.

Lemma tenth_below (f : nat) (n : N) :
  (10 <= n)%N -> (n < 2 ^ N.of_nat (S f))%N -> (n / 10 < 2 ^ N.of_nat f)%N.
Proof.
  intros Hn Hf. apply N.Div0.div_lt_upper_bound.
  rewrite Nat2N.inj_succ, N.pow_succ_r' in Hf. lia.
Qed.

(** The digits do not depend on the fuel once there is enough of it. *)
Lemma decimal_fuel_enough (f1 f2 : nat) (n : N) :
  (n < 2 ^ N.of_nat f1)%N -> (n < 2 ^ N.of_nat f2)%N ->
  decimal_fuel (S f1) n = decimal_fuel (S f2) n.
Proof.
  revert f2 n. induction f1 as [|f1 IH]; intros f2 n H1 H2.
  - cbn in H1. assert (n = 0%N) as -> by lia. reflexivity.
  - cbn [decimal_fuel]. destruct (N.ltb_spec n 10) as [Hs|Hs]; [done|].
    destruct f2 as [|f2]; [cbn in H2; lia|].
    f_equal. change (decimal_fuel (S f1) (n / 10) = decimal_fuel (S f2) (n / 10)).
    apply IH; by apply tenth_below.
Qed.

Lemma below_log2 (n : N) : (n < 2 ^ N.of_nat (S (N.to_nat (N.log2 n))))%N.
Proof.
  rewrite Nat2N.inj_succ, N2Nat.id.
  destruct (N.eq_dec n 0%N) as [->|Hn]; [done|].
  apply N.log2_spec. lia.
Qed.

(** [str(n)] is [str(n // 10)] followed by the last digit, and that digit
    alone below ten. *)
Lemma decimal_unfold (n : N) :
  decimal n =
  (if (n <? 10)%N then "" else decimal (n / 10)) +:+ String (digit n) "".
Proof.
  unfold decimal at 1. cbn [decimal_fuel].
  destruct (N.ltb_spec n 10) as [Hs|Hs]; [done|]. f_equal. unfold decimal.
  apply decimal_fuel_enough; [|apply below_log2].
  apply tenth_below; [done|apply below_log2].
Qed.

End Decimal.

(* ===================================================================== *)
(** ** get_ingredients_from_user *)
(* ===================================================================== *)

Section Collecting.

Lemma ingredient_loop_fuel (f1 f2 : nat) (ingredients : list string) (w : world) :
  length (stdin w) <= f1 -> length (stdin w) <= f2 ->
  ingredient_loop f1 ingredients w = ingredient_loop f2 ingredients w.
Proof.
  revert f2 ingredients w.
  induction f1 as [|f1 IH]; intros [|f2] ingredients w H1 H2;
    try reflexivity;
    cbn [ingredient_loop]; unfold ingredient_step, bind, input;
    destruct (stdin w) as [|[s| |] rest] eqn:E; try reflexivity;
    cbn [length] in H1, H2; try lia.
  assert (Hr : forall l ev,
    ingredient_loop f1 l (log ev (with_stdin (log (Prompted "Ingredient: ") w) rest))
    = ingredient_loop f2 l (log ev (with_stdin (log (Prompted "Ingredient: ") w) rest))).
  { intros l ev. apply IH; simpl; lia. }
  assert (Hr' : forall l,
    ingredient_loop f1 l (with_stdin (log (Prompted "Ingredient: ") w) rest)
    = ingredient_loop f2 l (with_stdin (log (Prompted "Ingredient: ") w) rest)).
  { intros l. apply IH; simpl; lia. }
  destruct (String.eqb (strip s) ""); [|apply Hr'].
  destruct ingredients; [|reflexivity]. unfold print. apply Hr.
Qed.

(** The equation of the [while True] loop: one round, then the loop
    again, whatever the fuel. *)
Lemma ingredient_loop_unfold (fuel : nat) (ingredients : list string) (w : world) :
  length (stdin w) <= fuel ->
  ingredient_loop fuel ingredients w = ingredient_step collecting ingredients w.
Proof.
  intros H. rewrite (ingredient_loop_fuel fuel (S (length (stdin w)))) by lia.
  cbn [ingredient_loop]. unfold ingredient_step, bind, input.
  destruct (stdin w) as [|[s| |] rest] eqn:E; try reflexivity.
  destruct (String.eqb (strip s) ""); [destruct ingredients|];
    try reflexivity; unfold print, collecting;
    apply ingredient_loop_fuel; simpl; lia.
Qed.

Lemma collecting_unfold (ingredients : list string) (w : world) :
  collecting ingredients w = ingredient_step collecting ingredients w.
Proof. unfold collecting at 1. by apply ingredient_loop_unfold. Qed.

(** The three ways a line is treated. *)
Lemma collecting_blank_first (w : world) (s : string) (rest : list keyboard) :
  stdin w = Line s :: rest -> strip s = "" ->
  collecting [] w =
  collecting [] (log (Printed "Please enter at least one ingredient.")
                   (with_stdin (log (Prompted "Ingredient: ") w) rest)).
Proof.
  intros E Hs. rewrite collecting_unfold at 1.
  unfold ingredient_step, bind, input. by rewrite E, Hs.
Qed.

Lemma collecting_blank_done (w : world) (s : string) (rest : list keyboard)
    (ingredients : list string) :
  stdin w = Line s :: rest -> strip s = "" -> ingredients <> [] ->
  collecting ingredients w =
  (Ok ingredients, with_stdin (log (Prompted "Ingredient: ") w) rest).
Proof.
  intros E Hs Hne. rewrite collecting_unfold.
  unfold ingredient_step, bind, input. rewrite E, Hs.
  by destruct ingredients.
Qed.

Lemma collecting_item (w : world) (s : string) (rest : list keyboard)
    (ingredients : list string) :
  stdin w = Line s :: rest -> strip s <> "" ->
  collecting ingredients w =
  collecting (ingredients ++ [strip s])
    (with_stdin (log (Prompted "Ingredient: ") w) rest).
Proof.
  intros E Hs. rewrite collecting_unfold at 1.
  unfold ingredient_step, bind, input. rewrite E.
  by destruct (String.eqb_spec (strip s) "").
Qed.

Lemma ingredient_loop_entries (fuel : nat) (ingredients : list string)
    (w : world) (l : list string) (w' : world) :
  length (stdin w) <= fuel -> Forall entry_ok ingredients ->
  ingredient_loop fuel ingredients w = (Ok l, w') ->
  l <> [] /\ Forall entry_ok l.
Proof.
  revert ingredients w.
  induction fuel as [|fuel IH]; intros ingredients w Hf Hall;
    cbn [ingredient_loop]; unfold ingredient_step, bind, input;
    destruct (stdin w) as [|[s| |] rest] eqn:E; try done;
    cbn [length] in Hf; try lia.
  destruct (String.eqb_spec (strip s) "") as [Hs|Hs].
  - destruct ingredients as [|x xs].
    + unfold print. apply IH; [simpl; lia|done].
    + by intros [= <- _].
  - apply IH; [simpl; lia|].
    apply Forall_app; split; [done|].
    apply Forall_singleton. split; [done|apply strip_idem].
Qed.

End Collecting.

(* ===================================================================== *)
(** ** What a computation leaves untouched *)
(* ===================================================================== *)

Section Stable.
Context (R : relation world) `{!PreOrder R}.

Lemma stable_ret {A} (a : A) : stable R (ret a).
Proof. intros w. reflexivity. Qed.

Lemma stable_raise {A} (e : exn) : stable R (raise (A:=A) e).
Proof. intros w. reflexivity. Qed.

Lemma stable_bind {A B} (m : M A) (f : A -> M B) :
  stable R m -> (forall a, stable R (f a)) -> stable R (bind m f).
Proof.
  intros Hm Hf w. unfold bind. specialize (Hm w).
  destruct (m w) as [[a|e] w1]; simpl in *; [|done].
  etransitivity; [exact Hm|apply Hf].
Qed.

Lemma stable_try_except {A} (body : M A) (handler : string -> M A) :
  stable R body -> (forall e, stable R (handler e)) ->
  stable R (try_except body handler).
Proof.
  intros Hm Hh w. unfold try_except. specialize (Hm w).
  destruct (body w) as [[a|[|msg]] w1]; simpl in *; try done.
  etransitivity; [exact Hm|apply Hh].
Qed.

Lemma stable_try_except2 {A} (body on_interrupt : M A) (handler : string -> M A) :
  stable R body -> stable R on_interrupt -> (forall e, stable R (handler e)) ->
  stable R (try_except2 body on_interrupt handler).
Proof.
  intros Hm Hi Hh w. unfold try_except2. specialize (Hm w).
  destruct (body w) as [[a|[|msg]] w1]; simpl in *; try done;
    (etransitivity; [exact Hm|]); [apply Hi|apply Hh].
Qed.

Lemma stable_getitem {A} (key : string) (field : option A) :
  stable R (getitem key field).
Proof. destruct field; [apply stable_ret|apply stable_raise]. Qed.

Lemma stable_text (r : response) : stable R (text r).
Proof. destruct r; [apply stable_ret|apply stable_raise]. Qed.

(** The loop is as stable as its parts. *)
Lemma stable_ingredient_loop (fuel : nat) (ingredients : list string) :
  stable R (input "Ingredient: ") ->
  stable R (print "Please enter at least one ingredient.") ->
  stable R (ingredient_loop fuel ingredients).
Proof.
  intros Hi Hp. revert ingredients.
  assert (Hstep : forall again, (forall l, stable R (again l)) ->
                  forall l, stable R (ingredient_step again l)).
  { intros again Ha l. apply stable_bind; [done|]. intros line. cbv zeta.
    destruct (String.eqb (strip line) ""); [|apply Ha].
    destruct l; [|apply stable_ret].
    apply stable_bind; [done|]. intros _. apply Ha. }
  induction fuel as [|fuel IH]; intros l; cbn [ingredient_loop];
    apply Hstep; [intros; apply stable_ret|done].
Qed.

Lemma stable_collecting (ingredients : list string) :
  stable R (input "Ingredient: ") ->
  stable R (print "Please enter at least one ingredient.") ->
  stable R (collecting ingredients).
Proof. intros Hi Hp w. unfold collecting. by apply stable_ingredient_loop. Qed.

End Stable.

(** Taking the structure of a computation apart, down to its primitives. *)
Ltac stable_step :=
  first
    [ apply stable_ret | apply stable_raise | apply stable_getitem
    | apply stable_text
    | apply stable_bind | apply stable_try_except | apply stable_try_except2
    | apply stable_collecting
    | match goal with
      | |- PreOrder _ => apply _
      | |- stable _ (if ?b then _ else _) => destruct b
      | |- stable _ (let _ := _ in _) => cbv zeta
      | |- forall _, _ => intro
      end ].

(** *** The relations that are kept: keyboard, service, files and trace *)

Section Relations.

Global Instance same_keys_preorder : PreOrder same_keys.
Proof. split; [done|]. intros x y z H1 H2. unfold same_keys in *. congruence. Qed.

Global Instance same_service_preorder : PreOrder same_service.
Proof.
  split; [done|]. intros x y z [H1 H1'] [H2 H2']. unfold same_service in *.
  split; congruence.
Qed.

Global Instance quiet_preorder (bad : event -> bool) : PreOrder (quiet bad).
Proof.
  split.
  - intros w. split; [done|]. exists []. by rewrite app_nil_r.
  - intros x y z [Hf1 (e1 & Ht1 & He1)] [Hf2 (e2 & Ht2 & He2)].
    split; [congruence|]. exists (e1 ++ e2). split.
    + by rewrite Ht2, Ht1, app_assoc.
    + by rewrite forallb_app, He1, He2.
Qed.

Lemma quiet_log (bad : event -> bool) (ev : event) (w : world) :
  bad ev = false -> quiet bad w (log ev w).
Proof.
  intros H. split; [done|]. exists [ev]. split; [done|]. simpl. by rewrite H.
Qed.

Lemma quiet_weaken (bad bad' : event -> bool) (w w' : world) :
  (forall ev, bad' ev = true -> bad ev = true) ->
  quiet bad w w' -> quiet bad' w w'.
Proof.
  intros Hb [Hf (evs & Ht & He)]. split; [done|]. exists evs. split; [done|].
  apply forallb_forall. intros ev Hin.
  rewrite forallb_forall in He. specialize (He ev Hin).
  destruct (bad' ev) eqn:E; [|done]. by rewrite (Hb ev E) in He.
Qed.

(** **** The primitives *)

Lemma keys_print s : stable same_keys (print s).
Proof. done. Qed.
Lemma keys_now : stable same_keys now.
Proof. done. Qed.
Lemma keys_generate_content p : stable same_keys (generate_content p).
Proof. intros w. unfold generate_content. by destruct (gemini w (calls w) p). Qed.
Lemma keys_open_w p : stable same_keys (open_w p).
Proof. intros w. unfold open_w. by destruct (next_fault (disk w)) as [[e|] d]. Qed.
Lemma keys_write p s : stable same_keys (write p s).
Proof. intros w. unfold write. by destruct (next_fault (disk w)) as [[e|] d]. Qed.

Lemma service_print s : stable same_service (print s).
Proof. done. Qed.
Lemma service_input p : stable same_service (input p).
Proof. intros w. unfold input. by destruct (stdin w) as [|[| |] ?]. Qed.

Lemma quiet_print bad s : bad (Printed s) = false -> stable (quiet bad) (print s).
Proof. intros H w. by apply quiet_log. Qed.
Lemma quiet_input bad p : bad (Prompted p) = false -> stable (quiet bad) (input p).
Proof.
  intros H w. unfold input.
  destruct (stdin w) as [|[| |] ?]; by apply (quiet_log bad (Prompted p) w).
Qed.
Lemma quiet_now bad : stable (quiet bad) now.
Proof. intros w. split; [done|]. exists []. by rewrite app_nil_r. Qed.
Lemma quiet_generate_content bad p :
  bad (Requested p) = false -> stable (quiet bad) (generate_content p).
Proof.
  intros H w. unfold generate_content.
  destruct (gemini w (calls w) p); by apply (quiet_log bad (Requested p) w).
Qed.

End Relations.

Ltac stable_prim :=
  first
    [ apply keys_print | apply keys_now | apply keys_generate_content
    | apply keys_open_w | apply keys_write
    | apply service_print | apply service_input
    | apply quiet_print; reflexivity | apply quiet_now
    | apply quiet_input; reflexivity
    | apply quiet_generate_content; reflexivity ].

Ltac stable_auto := repeat first [ stable_prim | stable_step ].

Section Composites.

Lemma keys_generate_recipe ingredients d c :
  stable same_keys (generate_recipe ingredients d c).
Proof. unfold generate_recipe. stable_auto. Qed.

Lemma keys_save_recipe r : stable same_keys (save_recipe r).
Proof. unfold save_recipe. stable_auto. Qed.

Lemma keys_display_recipe r : stable same_keys (display_recipe r).
Proof. unfold display_recipe. stable_auto. Qed.

Lemma service_get_ingredients : stable same_service get_ingredients_from_user.
Proof. unfold get_ingredients_from_user. stable_auto. Qed.

Lemma service_get_preferences : stable same_service get_additional_preferences.
Proof. unfold get_additional_preferences. stable_auto. Qed.

Lemma calm_get_ingredients : stable (quiet is_save_event) get_ingredients_from_user.
Proof. unfold get_ingredients_from_user. stable_auto. Qed.

Lemma calm_get_preferences : stable (quiet is_save_event) get_additional_preferences.
Proof. unfold get_additional_preferences. stable_auto. Qed.

Lemma calm_generate_recipe ingredients d c :
  stable (quiet is_save_event) (generate_recipe ingredients d c).
Proof. unfold generate_recipe. stable_auto. Qed.

Lemma calm_display_recipe r : stable (quiet is_save_event) (display_recipe r).
Proof. unfold display_recipe. stable_auto. Qed.

Lemma calm_continue_or_exit : stable (quiet is_save_event) continue_or_exit.
Proof. unfold continue_or_exit. stable_auto. Qed.

End Composites.

(* ===================================================================== *)
(** ** generate_recipe *)
(* ===================================================================== *)

Section GenerateRecipe.

(** What [generate_recipe] does, by what the service does. *)
Lemma generate_recipe_cases (ingredients : list string) (d c : string) (w : world) :
  let prompt := generate_recipe_prompt ingredients d c in
  let w1 := with_calls
              (log (Requested prompt)
                 (log (Printed (nl +:+ glyph_pan +:+ " Generating recipe with AI...")) w))
              (S (calls w)) in
  let report msg := Printed (glyph_cross +:+ " Error generating recipe: " +:+ msg) in
  generate_recipe ingredients d c w =
  match gemini w (calls w) prompt with
  | Returns (HasText t) =>
      (Ok (success_result (isoformat (clock w (ticks w))) ingredients d c t),
       with_ticks w1 (S (ticks w)))
  | Returns (NoText msg) =>
      (Ok (failure_result (isoformat (clock w (S (ticks w)))) ingredients msg),
       with_ticks (log (report msg) (with_ticks w1 (S (ticks w)))) (S (S (ticks w))))
  | Fails (Exception msg) =>
      (Ok (failure_result (isoformat (clock w (ticks w))) ingredients msg),
       with_ticks (log (report msg) w1) (S (ticks w)))
  | Fails KeyboardInterrupt => (Raise KeyboardInterrupt, w1)
  end.
Proof.
  intros prompt w1 report.
  unfold generate_recipe, try_except, bind, print, generate_content, now.
  cbn [calls log gemini].
  fold prompt. by destruct (gemini w (calls w) prompt) as [[t|msg]|[|msg]].
Qed.

(** A result is one of the two dicts. *)
Lemma generate_recipe_result (ingredients : list string) (d c : string)
    (w w' : world) (r : recipe_dict) :
  generate_recipe ingredients d c w = (Ok r, w') ->
  (exists ts t, r = success_result ts ingredients d c t /\
     gemini w (calls w) (generate_recipe_prompt ingredients d c) = Returns (HasText t)) \/
  (exists ts msg, r = failure_result ts ingredients msg).
Proof.
  rewrite generate_recipe_cases. cbv zeta.
  destruct (gemini w (calls w) _) as [[t|msg]|[|msg]]; intros [= <- <-]; eauto 6.
Qed.

End GenerateRecipe.

(** C1, as stated, fails: the service may answer with an empty text, which
    comes back as a success whose text is empty. *)
Lemma generate_recipe_empty_text :
  ~ nonempty_outcome
      (generate_recipe ["egg"] "" "" (sample_world [] (Returns (HasText "")) [])).1.
Proof.
  rewrite generate_recipe_cases. simpl.
  intros [[_ (t & [= <-] & Ht)]|[[=] _]]. by apply Ht.
Qed.

(** C1, amended: [generate_recipe] contains every [Exception] of the call:
    a returned text comes back verbatim in a success dict, an exception
    of the call or of reading the text comes back as an error dict
    carrying [str(e)] (either may be the empty string), and only a
    [KeyboardInterrupt] goes on to the caller. *)
Theorem generate_recipe_contains_exceptions
    (ingredients : list string) (d c : string) (w : world) :
  match gemini w (calls w) (generate_recipe_prompt ingredients d c) with
  | Returns (HasText t) =>
      exists ts w', generate_recipe ingredients d c w =
                    (Ok (success_result ts ingredients d c t), w')
  | Returns (NoText msg) | Fails (Exception msg) =>
      exists ts w', generate_recipe ingredients d c w =
                    (Ok (failure_result ts ingredients msg), w')
  | Fails KeyboardInterrupt =>
      exists w', generate_recipe ingredients d c w = (Raise KeyboardInterrupt, w')
  end.
Proof.
  rewrite generate_recipe_cases. cbv zeta.
  destruct (gemini w (calls w) _) as [[t|msg]|[|msg]]; eauto.
Qed.

(* ===================================================================== *)
(** ** The saving phase of a round *)
(* ===================================================================== *)

Section Persisting.

Lemma offer_save_not_success (r : recipe_dict) (w : world) :
  status r <> Some "success" -> (offer_save r w).2 = w.
Proof.
  intros H. unfold offer_save, bind, getitem.
  destruct (status r) as [st|]; [|done]. simpl.
  destruct (String.eqb_spec st "success") as [->|_]; done.
Qed.

Lemma offer_save_failure (ts : string) (ingredients : list string)
    (msg : string) (w : world) :
  offer_save (failure_result ts ingredients msg) w = (Ok tt, w).
Proof. reflexivity. Qed.

(** Unless the dict is a success and the answer to the question is yes,
    no file is opened and none is changed. *)
Lemma offer_save_cases (r : recipe_dict) (w : world) :
  (status r = Some "success" /\
   exists answer rest, stdin w = Line answer :: rest /\ says_yes answer = true /\
     offer_save r w =
     (_ <- save_recipe r ;; ret tt) (with_stdin (log (Prompted save_prompt) w) rest))
  \/ quiet is_open w (offer_save r w).2.
Proof.
  destruct (decide (status r = Some "success")) as [Hs|Hs].
  2:{ right. rewrite offer_save_not_success by done. reflexivity. }
  unfold offer_save, bind, getitem, input. rewrite Hs. simpl.
  destruct (stdin w) as [|[answer| |] rest] eqn:E;
    try (right; by apply (quiet_log is_open (Prompted save_prompt) w)).
  destruct (says_yes answer) eqn:Ha.
  - left. split; [done|]. exists answer, rest. by rewrite Ha.
  - right. by apply (quiet_log is_open (Prompted save_prompt) w).
Qed.

Lemma calm_after_failure (ts : string) (ingredients : list string) (msg : string) :
  stable (quiet is_save_event)
    (display_recipe (failure_result ts ingredients msg) ;;;
     offer_save (failure_result ts ingredients msg) ;;;
     continue_or_exit).
Proof.
  apply stable_bind; [apply _|apply calm_display_recipe|]. intros _.
  apply stable_bind; [apply _| |intros _; apply calm_continue_or_exit].
  intros w. rewrite offer_save_failure. reflexivity.
Qed.

Lemma stable_bind_at {A B} (R : relation world) `{!PreOrder R}
    (m : M A) (f : A -> M B) (w : world) :
  R w (m w).2 ->
  (forall a w1, m w = (Ok a, w1) -> R w1 (f a w1).2) ->
  R w (bind m f w).2.
Proof.
  intros Hm Hf. unfold bind. destruct (m w) as [[a|e] w1]; [|done].
  etransitivity; [exact Hm|]. by apply Hf.
Qed.

(** A round in which the service gives no text is calm. *)
Lemma iteration_calm (w : world) :
  (forall p t, gemini w (calls w) p <> Returns (HasText t)) ->
  quiet is_save_event w (iteration w).2.
Proof.
  intros Hdown. unfold iteration.
  apply stable_bind_at; [apply _|apply calm_get_ingredients|].
  intros ingredients w1 E1.
  pose proof (service_get_ingredients w) as [Hg1 Hn1]. rewrite E1 in Hg1, Hn1.
  apply stable_bind_at; [apply _|apply calm_get_preferences|].
  intros [d c] w2 E2.
  pose proof (service_get_preferences w1) as [Hg2 Hn2]. rewrite E2 in Hg2, Hn2.
  apply stable_bind_at; [apply _|apply calm_generate_recipe|].
  intros r w3 E3.
  destruct (generate_recipe_result _ _ _ _ _ _ E3)
    as [(ts & t & _ & Ht)|(ts & msg & ->)].
  - exfalso. apply (Hdown (generate_recipe_prompt ingredients d c) t).
    cbn [fst snd] in *. by rewrite <- Hg1, <- Hn1, <- Hg2, <- Hn2.
  - apply calm_after_failure.
Qed.

Lemma loop_body_calm (w : world) :
  (forall p t, gemini w (calls w) p <> Returns (HasText t)) ->
  quiet is_save_event w (loop_body w).2.
Proof.
  intros Hdown. pose proof (iteration_calm w Hdown) as Hc.
  unfold loop_body, try_except2, bind, print.
  destruct (iteration w) as [[c|[|msg]] w1]; simpl in *; [done| |];
    (etransitivity; [exact Hc|]); by apply quiet_log.
Qed.

End Persisting.

(** *** The saving phase in the whole round *)

Section PersistingRound.

Global Instance grows_preorder : PreOrder grows.
Proof.
  split.
  - intros w. exists []. by rewrite app_nil_r.
  - intros x y z [e1 H1] [e2 H2]. exists (e1 ++ e2). by rewrite H2, H1, app_assoc.
Qed.

Lemma grows_print s : stable grows (print s).
Proof. intros w. by exists [Printed s]. Qed.

Lemma grows_write path s : stable grows (write path s).
Proof.
  intros w. unfold write. destruct (next_fault (disk w)) as [[e|] d];
    exists []; by rewrite app_nil_r.
Qed.

(** [save_recipe] starts with [open]: whenever it runs, the trace shows
    the file opened. *)
Lemma save_recipe_opens (r : recipe_dict) (w : world) :
  exists evs,
    trace (save_recipe r w).2 =
    trace w ++ Opened (filepath_at (clock w (ticks w))) :: evs.
Proof.
  unfold save_recipe. unfold bind at 1, now. cbv beta iota zeta.
  fold (filename_at (clock w (ticks w))). fold (filepath_at (clock w (ticks w))).
  set (path := filepath_at (clock w (ticks w))).
  match goal with
  | |- context [try_except (open_w path ;;; ?rest) ?handler ?w1] =>
      assert (Hr : stable grows rest)
        by (repeat first [ apply grows_print | apply grows_write | stable_step ]);
      assert (Hh : forall e, stable grows (handler e))
        by (intros e; repeat first [ apply grows_print | stable_step ]);
      unfold try_except, bind at 1, open_w;
      destruct (next_fault (disk w1)) as [[[|msg]|] d]
  end.
  - by exists [].
  - destruct (Hh msg (with_files (log (Opened path) (with_ticks w (S (ticks w))))
                        (files (with_ticks w (S (ticks w)))) d)) as [evs Hevs].
    exists evs. rewrite Hevs. cbn [trace log with_files with_ticks].
    by rewrite <- app_assoc.
  - match goal with
    | |- context [?rest ?w2] =>
        match type of Hr with stable grows ?m => unify rest m end;
        pose proof (Hr w2) as [evs Hevs]; set (out := rest w2) in *
    end.
    destruct out as [[a|[|msg]] w3]; cbn [snd] in *.
    + exists evs. rewrite Hevs. cbn [trace log with_files with_ticks].
      by rewrite <- app_assoc.
    + exists evs. rewrite Hevs. cbn [trace log with_files with_ticks].
      by rewrite <- app_assoc.
    + destruct (Hh msg w3) as [evs' Hevs']. exists (evs ++ evs').
      rewrite Hevs', Hevs. cbn [trace log with_files with_ticks].
      by rewrite <- !app_assoc.
Qed.

Lemma quiet_not_opened (w w' : world) (path : string) (evs : list event) :
  trace w' = trace w ++ Opened path :: evs -> ~ quiet is_open w w'.
Proof.
  intros Ht [_ (evs' & Ht' & Hq)]. rewrite Ht in Ht'.
  apply app_inv_head in Ht'. by subst evs'.
Qed.

Lemma iteration_from_saving (w : world) :
  iteration w = (r <- before_saving ;; offer_save r ;;; continue_or_exit) w.
Proof.
  unfold iteration, before_saving, bind.
  destruct (get_ingredients_from_user w) as [[ingredients|e] w1]; [|done].
  destruct (get_additional_preferences w1) as [[prefs|e] w2]; [|done].
  destruct (generate_recipe ingredients prefs.1 prefs.2 w2) as [[r|e] w3]; [|done].
  by destruct (display_recipe r w3) as [[[]|e] w4].
Qed.

Lemma calm_before_saving : stable (quiet is_save_event) before_saving.
Proof.
  unfold before_saving.
  repeat first [ apply calm_get_ingredients | apply calm_get_preferences
               | apply calm_generate_recipe | apply calm_display_recipe
               | stable_step ].
Qed.

Lemma before_saving_result (w w3 : world) (r : recipe_dict) :
  before_saving w = (Ok r, w3) ->
  (exists ts ingredients d c t, r = success_result ts ingredients d c t) \/
  (exists ts ingredients msg, r = failure_result ts ingredients msg).
Proof.
  unfold before_saving, bind.
  destruct (get_ingredients_from_user w) as [[ingredients|e] w1]; [|done].
  destruct (get_additional_preferences w1) as [[prefs|e] w2]; [|done].
  destruct (generate_recipe ingredients prefs.1 prefs.2 w2) as [[r'|e] w3'] eqn:E;
    [|done].
  destruct (display_recipe r' w3') as [[[]|e] w4]; [|done].
  intros [= <- <-].
  destruct (generate_recipe_result _ _ _ _ _ _ E)
    as [(ts & t & -> & _)|(ts & msg & ->)]; eauto 8.
Qed.

Lemma save_is_open (ev : event) : is_open ev = true -> is_save_event ev = true.
Proof. intros H. unfold is_save_event. by rewrite H, orb_true_r. Qed.

(** The handlers of the loop print, and no more. *)
Lemma loop_body_quiet (bad : event -> bool) (w : world) :
  (forall s, bad (Printed s) = false) ->
  quiet bad w (iteration w).2 -> quiet bad w (loop_body w).2.
Proof.
  intros Hb Hq. unfold loop_body, try_except2, bind, print, ret.
  destruct (iteration w) as [[c|[|msg]] w1]; cbn [snd] in *; [done| |];
    (etransitivity; [exact Hq|]); by apply quiet_log.
Qed.

(** A round after its saving block. *)
Lemma round_quiet_from (bad : event -> bool) (w w3 : world) (r : recipe_dict) :
  (forall ev, bad ev = true -> is_save_event ev = true) ->
  before_saving w = (Ok r, w3) ->
  quiet bad w3 (offer_save r w3).2 ->
  quiet bad w (loop_body w).2.
Proof.
  intros Hb E Hq.
  assert (Hp : forall s, bad (Printed s) = false).
  { intros s. destruct (bad (Printed s)) eqn:Hs; [|done]. by apply Hb in Hs. }
  apply loop_body_quiet; [done|]. rewrite iteration_from_saving.
  unfold bind at 1. rewrite E.
  transitivity w3.
  { pose proof (calm_before_saving w) as Hc. rewrite E in Hc.
    by apply (quiet_weaken is_save_event). }
  apply stable_bind_at; [apply _|done|]. intros [] w4 _.
  apply (quiet_weaken is_save_event); [done|apply calm_continue_or_exit].
Qed.

(** The round by its saving block. *)
Lemma round_saving_cases (w : world) :
  quiet is_open w (loop_body w).2 \/
  exists r w3 answer rest,
    before_saving w = (Ok r, w3) /\ status r = Some "success" /\
    stdin w3 = Line answer :: rest /\ says_yes answer = true /\
    iteration w =
    (save_recipe r ;;; continue_or_exit)
      (with_stdin (log (Prompted save_prompt) w3) rest).
Proof.
  destruct (before_saving w) as [[r|e] w3] eqn:E.
  - destruct (offer_save_cases r w3)
      as [(Hs & answer & rest & Hk & Hy & Eo)|Hq].
    + right. exists r, w3, answer, rest. repeat (split; [done|]).
      rewrite iteration_from_saving. unfold bind at 1. rewrite E.
      unfold bind at 1. rewrite Eo. unfold bind, ret.
      by destruct (save_recipe r _) as [[v|e] w5].
    + left. apply (round_quiet_from is_open w w3 r); [apply save_is_open|done|done].
  - left. apply loop_body_quiet; [done|]. rewrite iteration_from_saving.
    unfold bind at 1. rewrite E. cbn [snd].
    pose proof (calm_before_saving w) as Hc. rewrite E in Hc.
    apply (quiet_weaken is_save_event); [apply save_is_open|done].
Qed.

Lemma round_declined (w w3 : world) (r : recipe_dict) :
  before_saving w = (Ok r, w3) ->
  (forall answer rest, stdin w3 = Line answer :: rest -> says_yes answer = false) ->
  quiet is_open w (loop_body w).2.
Proof.
  intros E Hno.
  destruct (round_saving_cases w) as [Hq|(r' & w3' & answer & rest & E' & _ & Hk & Hy & _)];
    [done|].
  rewrite E in E'. injection E' as <- <-.
  by rewrite (Hno answer rest Hk) in Hy.
Qed.

Lemma round_after_failure (w w3 : world) (r : recipe_dict) :
  before_saving w = (Ok r, w3) -> status r <> Some "success" ->
  quiet is_save_event w (loop_body w).2.
Proof.
  intros E Hs. apply (round_quiet_from is_save_event w w3 r); [done|done|].
  rewrite offer_save_not_success by done. reflexivity.
Qed.

Lemma round_without_outcome (w w3 : world) (e : exn) :
  before_saving w = (Raise e, w3) -> quiet is_save_event w (loop_body w).2.
Proof.
  intros E. apply loop_body_quiet; [done|]. rewrite iteration_from_saving.
  unfold bind at 1. rewrite E. cbn [snd].
  pose proof (calm_before_saving w) as Hc. by rewrite E in Hc.
Qed.

End PersistingRound.

(** C5: the saving phase needs a success and the user's yes, in the block
    and in the round.  The block: for every result dict, either it is a
    success, the answer to the question is yes and [save_recipe] runs, or
    the block opens and changes no file; a failure dict leaves the world
    as it is, without the question.  The round is [before_saving], then
    the block, then the question whether to go on, and the dict it comes
    to is one of the two of [generate_recipe].  So for every round: either
    no file is opened and none changed, or the dict is a success, the next
    line at the keyboard says yes and the round goes on with
    [save_recipe]; after a success whose answer is not a yes no file is
    opened; after a failure, or when the round raises before it has a
    dict, or when the service gives no text, the question is not asked
    either.  And [save_recipe] opens its file whenever it runs, so that a
    round without an [open] is a round without [save_recipe]. *)
Theorem persisting_needs_success_and_consent (w : world) :
  (forall r,
     (status r = Some "success" /\
      exists answer rest, stdin w = Line answer :: rest /\ says_yes answer = true /\
        offer_save r w =
        (_ <- save_recipe r ;; ret tt) (with_stdin (log (Prompted save_prompt) w) rest))
     \/ quiet is_open w (offer_save r w).2) /\
  (forall ts ingredients msg,
     offer_save (failure_result ts ingredients msg) w = (Ok tt, w)) /\
  ((forall p t, gemini w (calls w) p <> Returns (HasText t)) ->
   quiet is_save_event w (loop_body w).2) /\
  iteration w = (r <- before_saving ;; offer_save r ;;; continue_or_exit) w /\
  (forall r w3, before_saving w = (Ok r, w3) ->
     (exists ts ingredients d c t, r = success_result ts ingredients d c t) \/
     (exists ts ingredients msg, r = failure_result ts ingredients msg)) /\
  (quiet is_open w (loop_body w).2 \/
   exists r w3 answer rest,
     before_saving w = (Ok r, w3) /\ status r = Some "success" /\
     stdin w3 = Line answer :: rest /\ says_yes answer = true /\
     iteration w =
     (save_recipe r ;;; continue_or_exit)
       (with_stdin (log (Prompted save_prompt) w3) rest)) /\
  (forall r w3, before_saving w = (Ok r, w3) ->
     (forall answer rest, stdin w3 = Line answer :: rest -> says_yes answer = false) ->
     quiet is_open w (loop_body w).2) /\
  (forall r w3, before_saving w = (Ok r, w3) -> status r <> Some "success" ->
     quiet is_save_event w (loop_body w).2) /\
  (forall e w3, before_saving w = (Raise e, w3) ->
     quiet is_save_event w (loop_body w).2) /\
  (forall r,
     (exists evs, trace (save_recipe r w).2 =
                  trace w ++ Opened (filepath_at (clock w (ticks w))) :: evs) /\
     ~ quiet is_open w (save_recipe r w).2).
Proof.
  split; [intros r; apply offer_save_cases|]. split; [intros; apply offer_save_failure|].
  split; [apply loop_body_calm|]. split; [apply iteration_from_saving|].
  split; [intros r w3; apply before_saving_result|].
  split; [apply round_saving_cases|]. split; [intros r w3; apply round_declined|].
  split; [intros r w3; apply round_after_failure|].
  split; [intros e w3; apply round_without_outcome|].
  intros r. destruct (save_recipe_opens r w) as [evs Hevs].
  split; [by exists evs|by eapply quiet_not_opened].
Qed.

Lemma persisting_needs_success_and_consent_witness :
  (let w := sample_world [Line "egg"; Line ""; Line "vegan"; Line ""; Line "n"]
              (Fails (Exception "network error")) [] in
   quiet is_save_event w (loop_body w).2) /\
  (let w := sample_world [Line "egg"; Line ""; Line ""; Line ""; Line "n"; Line "n"]
              (Returns (HasText "Omelette")) [] in
   exists r w3, before_saving w = (Ok r, w3) /\ status r = Some "success" /\
                quiet is_open w (loop_body w).2).
Proof.
  split.
  - intros w. apply (persisting_needs_success_and_consent w). by intros p t.
  - intros w. destruct (before_saving w) as [[r|e] w3] eqn:E; [|by vm_compute in E].
    exists r, w3. split; [done|].
    assert (H : status r = Some "success" /\ stdin w3 = [Line "n"; Line "n"]).
    { vm_compute in E. by injection E as <- <-. }
    destruct H as [Hs Hk]. split; [done|].
    refine (proj1 (proj2 (proj2 (proj2 (proj2 (proj2 (proj2
              (persisting_needs_success_and_consent w)))))))
              r w3 E _).
    intros answer rest Hk'. rewrite Hk in Hk'. by injection Hk' as <- _.
Defined.

(* ===================================================================== *)
(** ** save_recipe *)
(* ===================================================================== *)

Section SaveRecipe.

Lemma no_fault_tail (d : list (option exn)) :
  no_fault d = true -> no_fault (tail d) = true.
Proof. destruct d as [|[e|] d]; simpl; done. Qed.

Lemma open_then {A} (path : string) (k : M A) (w : world) :
  no_fault (disk w) = true ->
  (open_w path ;;; k) w =
  k (with_files (log (Opened path) w) (<[path := ""]> (files w)) (tail (disk w))).
Proof.
  intros H. unfold bind, open_w. by destruct (disk w) as [|[e|] d].
Qed.

Lemma write_then {A} (path s : string) (k : M A) (w0 : world)
    (fs : gmap string string) (d : list (option exn)) (cur : string) :
  no_fault d = true ->
  (write path s ;;; k) (with_files w0 (<[path := cur]> fs) d) =
  k (with_files w0 (<[path := cur +:+ s]> fs) (tail d)).
Proof.
  intros H. unfold bind, write. cbn [disk files with_files].
  rewrite lookup_insert_eq, insert_insert_eq.
  by destruct d as [|[e|] d].
Qed.

Lemma getitem_then {A B} (key : string) (v : A) (f : A -> M B) (w : world) :
  (x <- getitem key (Some v) ;; f x) w = f v w.
Proof. reflexivity. Qed.

Lemma ret_then {A B} (a : A) (k : M B) (w : world) : (ret a ;;; k) w = k w.
Proof. reflexivity. Qed.

Lemma now_then {A} (f : datetime -> M A) (w : world) :
  (dt <- now ;; f dt) w = f (clock w (ticks w)) (with_ticks w (S (ticks w))).
Proof. reflexivity. Qed.

Lemma try_except_ok {A} (body : M A) (handler : string -> M A)
    (w w' : world) (a : A) :
  body w = (Ok a, w') -> try_except body handler w = (Ok a, w').
Proof. intros H. unfold try_except. by rewrite H. Qed.

Lemma bind_assoc {A B C} (m : M A) (f : A -> M B) (g : B -> M C) (w : world) :
  bind (bind m f) g w = bind m (fun a => bind (f a) g) w.
Proof. unfold bind. by destruct (m w) as [[a|e] w']. Qed.

Ltac write_all :=
  repeat first
    [ rewrite bind_assoc
    | rewrite getitem_then; cbv beta
    | rewrite ret_then
    | rewrite write_then by (repeat apply no_fault_tail; assumption) ].

(** With a disk that works, the file of a success dict. *)
Lemma save_recipe_success (ts : string) (ingredients : list string)
    (d c recipe_text : string) (w : world) :
  no_fault (disk w) = true ->
  let dt := clock w (ticks w) in
  exists faults,
    save_recipe (success_result ts ingredients d c recipe_text) w =
    (Ok (filename_at dt),
     log (Printed (glyph_folder +:+ " Recipe saved to: " +:+ filepath_at dt))
       (with_files (log (Opened (filepath_at dt)) (with_ticks w (S (ticks w))))
          (<[filepath_at dt := artifact_format ts ingredients d c recipe_text]> (files w))
          faults)).
Proof.
  intros H dt. unfold save_recipe. rewrite now_then. cbv zeta. fold dt.
  fold (filename_at dt). fold (filepath_at dt).
  assert (H1 : no_fault (tail (disk (with_ticks w (S (ticks w))))) = true)
    by (by apply no_fault_tail).
  destruct d as [|d0 d'], c as [|c0 c']; eexists; apply try_except_ok;
    rewrite open_then by done;
    cbn [success_result timestamp input_ingredients dietary_restrictions
         cuisine_type generated_recipe error status get_truthy truthy];
    write_all; cbn [String.eqb Ascii.eqb Bool.eqb]; write_all;
    unfold print, ret, bind, artifact_format; cbn [truthy];
    rewrite ?append_assoc, ?append_nil_l; reflexivity.
Qed.

(** With a disk that works, the file of an error dict. *)
Lemma save_recipe_failure (ts : string) (ingredients : list string)
    (msg : string) (w : world) :
  no_fault (disk w) = true ->
  let dt := clock w (ticks w) in
  exists faults,
    save_recipe (failure_result ts ingredients msg) w =
    (Ok (filename_at dt),
     log (Printed (glyph_folder +:+ " Recipe saved to: " +:+ filepath_at dt))
       (with_files (log (Opened (filepath_at dt)) (with_ticks w (S (ticks w))))
          (<[filepath_at dt :=
               artifact_format ts ingredients "" "" ("Error: " +:+ msg)]> (files w))
          faults)).
Proof.
  intros H dt. unfold save_recipe. rewrite now_then. cbv zeta. fold dt.
  fold (filename_at dt). fold (filepath_at dt).
  assert (H1 : no_fault (tail (disk (with_ticks w (S (ticks w))))) = true)
    by (by apply no_fault_tail).
  eexists; apply try_except_ok;
    rewrite open_then by done;
    cbn [failure_result timestamp input_ingredients dietary_restrictions
         cuisine_type generated_recipe error status get_truthy truthy];
    write_all; cbn [String.eqb Ascii.eqb Bool.eqb]; write_all;
    unfold print, ret, bind, artifact_format; cbn [truthy];
    rewrite ?append_assoc, ?append_nil_l; reflexivity.
Qed.

(** *** The digits of the file name *)

Lemma length_append (s t : string) :
  String.length (s +:+ t) = String.length s + String.length t.
Proof. induction s as [|c s IH]; [done|]. rewrite append_cons. simpl. by rewrite IH. Qed.

Lemma all_digits_append (s t : string) :
  all_digits (s +:+ t) = all_digits s && all_digits t.
Proof.
  induction s as [|c s IH]; [done|]. rewrite append_cons. simpl.
  by rewrite IH, andb_assoc.
Qed.

Lemma is_digit_digit (n : N) : is_digit (digit n) = true.
Proof.
  unfold digit. pose proof (N.mod_upper_bound n 10 ltac:(done)) as Hk.
  generalize dependent (n mod 10)%N. intros k Hk.
  assert (Hc : (k = 0 \/ k = 1 \/ k = 2 \/ k = 3 \/ k = 4 \/ k = 5 \/ k = 6 \/
                k = 7 \/ k = 8 \/ k = 9)%N) by lia.
  destruct Hc as [->|[->|[->|[->|[->|[->|[->|[->|[->| ->]]]]]]]]]; reflexivity.
Qed.

Lemma all_digits_decimal_fuel (f : nat) (n : N) :
  all_digits (decimal_fuel f n) = true.
Proof.
  revert n. induction f as [|f IH]; intros n; [done|]. cbn [decimal_fuel].
  rewrite all_digits_append. cbn [all_digits]. rewrite is_digit_digit.
  by destruct (n <? 10)%N; [|rewrite IH].
Qed.

Lemma all_digits_zfill (width : nat) (s : string) :
  all_digits s = true -> all_digits (zfill width s) = true.
Proof.
  intros H. unfold zfill. rewrite all_digits_append, H, andb_true_r.
  induction (width - String.length s) as [|k IH]; [done|]. exact IH.
Qed.

Lemma length_repeat_zero (k : nat) : String.length (repeat_str "0" k) = k.
Proof.
  induction k as [|k IH]; [done|]. cbn [repeat_str].
  by rewrite length_append, IH.
Qed.

Lemma length_decimal_fuel_small (f : nat) (n : N) :
  (n < 10)%N -> String.length (decimal_fuel (S f) n) = 1.
Proof. intros H. cbn [decimal_fuel]. by apply N.ltb_lt in H as ->. Qed.

Lemma length_decimal_fuel_step (f : nat) (n : N) :
  (10 <= n)%N ->
  String.length (decimal_fuel (S f) n) = S (String.length (decimal_fuel f (n / 10))).
Proof.
  intros H. cbn [decimal_fuel]. apply N.ltb_ge in H as ->.
  rewrite length_append. simpl. lia.
Qed.

(** A field below 100 takes two characters under ["%02d"]. *)
Lemma length_two_digits (n : N) :
  (n <= 99)%N -> String.length (zfill 2 (decimal n)) = 2.
Proof.
  intros H. unfold zfill, decimal. rewrite length_append, length_repeat_zero.
  destruct (N.ltb_spec n 10) as [Hs|Hs].
  - by rewrite length_decimal_fuel_small.
  - rewrite length_decimal_fuel_step by done.
    rewrite length_decimal_fuel_small; [done|].
    apply N.Div0.div_lt_upper_bound. lia.
Qed.

(** A year of four digits takes four characters. *)
Lemma length_four_digits (n : N) :
  (1000 <= n <= 9999)%N -> String.length (decimal n) = 4.
Proof.
  intros [Hl Hu]. unfold decimal.
  assert (Hlog : (9 <= N.log2 n)%N).
  { change 9%N with (N.log2 1000). by apply N.log2_le_mono. }
  destruct (N.to_nat (N.log2 n)) as [|[|[|k]]] eqn:E; try lia.
  assert (H1 : (100 <= n / 10 < 1000)%N).
  { split; [apply N.div_le_lower_bound|apply N.Div0.div_lt_upper_bound]; lia. }
  assert (H2 : (10 <= n / 10 / 10 < 100)%N).
  { split; [apply N.div_le_lower_bound|apply N.Div0.div_lt_upper_bound]; lia. }
  assert (H3 : (n / 10 / 10 / 10 < 10)%N).
  { apply N.Div0.div_lt_upper_bound; lia. }
  rewrite !length_decimal_fuel_step by lia.
  by rewrite length_decimal_fuel_small.
Qed.

Lemma eat_append (p s : string) : eat p (p +:+ s) = Some s.
Proof.
  induction p as [|c p IH]; [done|]. rewrite append_cons. simpl.
  by rewrite Ascii.eqb_refl.
Qed.

Lemma eat_digits_append (n : nat) (d s : string) :
  String.length d = n -> all_digits d = true -> eat_digits n (d +:+ s) = Some s.
Proof.
  revert d. induction n as [|n IH]; intros [|c d]; try done.
  intros [= Hl] [Hc Hd]%andb_prop. rewrite append_cons. simpl.
  rewrite Hc. by apply IH.
Qed.

(** The name built from a plausible reading of the clock has the form
    [recipe_<YYYYMMDD_HHMMSS>.txt]. *)
Lemma filename_matches (dt : datetime) :
  plausible dt -> matches_recipe_pattern (filename_at dt) = true.
Proof.
  intros (Hy & Hm & Hd & Hh & Hmi & Hs & _).
  unfold matches_recipe_pattern, filename_at, strftime_stamp.
  rewrite eat_append.
  pose (date := decimal (year dt) +:+ zfill 2 (decimal (month dt))
               +:+ zfill 2 (decimal (day dt))).
  pose (time := zfill 2 (decimal (hour dt)) +:+ zfill 2 (decimal (minute dt))
               +:+ zfill 2 (decimal (second dt))).
  assert (E : (decimal (year dt) +:+ zfill 2 (decimal (month dt)) +:+
               zfill 2 (decimal (day dt)) +:+ "_" +:+
               zfill 2 (decimal (hour dt)) +:+ zfill 2 (decimal (minute dt)) +:+
               zfill 2 (decimal (second dt))) +:+ ".txt"
              = date +:+ "_" +:+ time +:+ ".txt").
  { unfold date, time. by rewrite !append_assoc. }
  rewrite E. clear E.
  assert (Hdl : String.length date = 8 /\ all_digits date = true).
  { unfold date. rewrite !length_append, !all_digits_append.
    rewrite length_four_digits, !length_two_digits by lia.
    unfold decimal at 1.
    rewrite all_digits_decimal_fuel, !all_digits_zfill
      by apply all_digits_decimal_fuel. done. }
  assert (Htl : String.length time = 6 /\ all_digits time = true).
  { unfold time. rewrite !length_append, !all_digits_append.
    rewrite !length_two_digits by lia.
    rewrite !all_digits_zfill by apply all_digits_decimal_fuel. done. }
  destruct Hdl as [Hdl Hdd], Htl as [Htl Htd].
  rewrite eat_digits_append by done. rewrite (eat_append "_").
  by rewrite eat_digits_append.
Qed.

End SaveRecipe.

Section SaveRecipeOutcome.

Lemma try_except_cases {A} (body : M A) (handler : string -> M A) (w : world) :
  (exists a w', body w = (Ok a, w') /\ try_except body handler w = (Ok a, w')) \/
  (exists w', try_except body handler w = (Raise KeyboardInterrupt, w')) \/
  (exists msg w', try_except body handler w = handler msg w').
Proof.
  unfold try_except. destruct (body w) as [[a|[|msg]] w']; eauto 6.
Qed.

(** A failure of [open]. *)
Lemma save_recipe_open_fails (r : recipe_dict) (w : world) (msg : string)
    (rest : list (option exn)) :
  disk w = Some (Exception msg) :: rest ->
  save_recipe r w =
  (Ok "",
   log (Printed (glyph_cross +:+ " Error saving recipe: " +:+ msg))
     (with_files (log (Opened (filepath_at (clock w (ticks w))))
                    (with_ticks w (S (ticks w))))
        (files w) rest)).
Proof.
  intros H. unfold save_recipe. rewrite now_then. cbv zeta.
  unfold try_except, bind at 1, open_w. cbn [disk with_ticks]. rewrite H.
  reflexivity.
Qed.

End SaveRecipeOutcome.

(** *** The faults of the disk *)

Section SaveRecipeFaults.

Lemma returns_after_bind {A B} (v : B) (ev : event) (m : M A) (f : A -> M B) :
  (forall x, returns_after v ev (f x)) -> returns_after v ev (bind m f).
Proof.
  intros Hf w b w'. unfold bind. destruct (m w) as [[a|e] w1]; [|done].
  apply Hf.
Qed.

Lemma returns_after_print {A} (v : A) (s : string) :
  returns_after v (Printed s) (print s ;;; ret v).
Proof. intros w a w' [= <- <-]. split; [done|]. apply last_snoc. Qed.

Lemma no_fault_app (d1 d2 : list (option exn)) :
  no_fault (d1 ++ d2) = no_fault d1 && no_fault d2.
Proof. apply forallb_app. Qed.

Lemma meets_none {A} (m : M A) :
  (forall w, disk (m w).2 = disk w) -> meets_faults m.
Proof. intros H w. exists []. rewrite H. by split; [|left]. Qed.

Lemma meets_ret {A} (a : A) : meets_faults (ret a).
Proof. by apply meets_none. Qed.

Lemma meets_print s : meets_faults (print s).
Proof. by apply meets_none. Qed.

Lemma meets_getitem {A} (key : string) (field : option A) :
  meets_faults (getitem key field).
Proof. apply meets_none. by destruct field. Qed.

Lemma meets_open_w path : meets_faults (open_w path).
Proof.
  intros w. unfold open_w. destruct (disk w) as [|[e|] d]; cbn [next_fault fst snd].
  - exists []. by split; [|left].
  - exists [Some e]. split; [done|]. right. by exists [], e.
  - exists [None]. by split; [|left].
Qed.

Lemma meets_write path s : meets_faults (write path s).
Proof.
  intros w. unfold write. destruct (disk w) as [|[e|] d]; cbn [next_fault fst snd].
  - exists []. by split; [|left].
  - exists [Some e]. split; [done|]. right. by exists [], e.
  - exists [None]. by split; [|left].
Qed.

Lemma meets_bind {A B} (m : M A) (f : A -> M B) :
  meets_faults m -> (forall a, meets_faults (f a)) -> meets_faults (bind m f).
Proof.
  intros Hm Hf w. unfold bind.
  destruct (Hm w) as (u1 & E1 & H1).
  destruct (m w) as [[a|e] w1]; cbn [fst snd] in *.
  - destruct H1 as [H1|(pre & e & _ & _ & [=])].
    destruct (Hf a w1) as (u2 & E2 & H2). exists (u1 ++ u2).
    split; [by rewrite <- app_assoc, <- E2|].
    destruct H2 as [H2|(pre & e & -> & Hp & He)].
    + left. by rewrite no_fault_app, H1, H2.
    + right. exists (u1 ++ pre), e. rewrite app_assoc.
      split; [done|]. split; [|done]. by rewrite no_fault_app, H1, Hp.
  - exists u1. split; [done|].
    destruct H1 as [H1|(pre & e' & -> & Hp & [= <-])]; [by left|right].
    by exists pre, e.
Qed.

Ltac meets_step :=
  first
    [ apply meets_ret | apply meets_print | apply meets_getitem
    | apply meets_open_w | apply meets_write | apply meets_bind
    | match goal with
      | |- meets_faults (if ?b then _ else _) => destruct b
      | |- forall _, _ => intro
      end ].

(** [save_recipe] by the faults of the disk it meets. *)
Lemma save_recipe_meets_faults (r : recipe_dict) (w : world) :
  exists used,
    disk w = used ++ disk (save_recipe r w).2 /\
    (no_fault used = true \/
     exists pre e, used = pre ++ [Some e] /\ no_fault pre = true /\
       match e with
       | Exception msg =>
           (save_recipe r w).1 = Ok "" /\
           last (trace (save_recipe r w).2) =
           Some (Printed (glyph_cross +:+ " Error saving recipe: " +:+ msg))
       | KeyboardInterrupt => (save_recipe r w).1 = Raise KeyboardInterrupt
       end).
Proof.
  unfold save_recipe. rewrite now_then. cbv zeta.
  match goal with
  | |- context [try_except ?body ?handler ?w1] =>
      assert (Hb : meets_faults body) by (repeat meets_step);
      destruct (Hb w1) as (used & E & H); unfold try_except;
      destruct (body w1) as [[a|[|msg]] w2]
  end; cbn [fst snd disk with_ticks] in *; exists used.
  - split; [done|]. destruct H as [H|(pre & e & _ & _ & [=])]. by left.
  - split; [done|]. destruct H as [H|(pre & e & -> & Hp & [= <-])]; [by left|right].
    by exists pre, KeyboardInterrupt.
  - unfold bind, print, ret. cbn [fst snd disk trace log].
    split; [done|]. destruct H as [H|(pre & e & -> & Hp & [= <-])]; [by left|right].
    exists pre, (Exception msg). split; [done|]. split; [done|]. split; [done|].
    apply last_snoc.
Qed.

(** A successful run ends with the message about the file. *)
Lemma save_recipe_outcome_exact (r : recipe_dict) (w : world) :
  match (save_recipe r w).1 with
  | Ok v =>
      (v = filename_at (clock w (ticks w)) /\
       last (trace (save_recipe r w).2) =
       Some (Printed (glyph_folder +:+ " Recipe saved to: " +:+
                      filepath_at (clock w (ticks w))))) \/
      (v = "" /\
       exists msg, last (trace (save_recipe r w).2) =
                   Some (Printed (glyph_cross +:+ " Error saving recipe: " +:+ msg)))
  | Raise e => e = KeyboardInterrupt
  end.
Proof.
  unfold save_recipe. rewrite now_then. cbv zeta.
  fold (filename_at (clock w (ticks w))).
  fold (filepath_at (clock w (ticks w))).
  match goal with
  | |- context [try_except ?body ?handler ?w1] =>
      destruct (try_except_cases body handler w1)
        as [(a & w' & Hb & ->)|[(w' & ->)|(msg & w' & ->)]];
      [assert (Hret : returns_after (filename_at (clock w (ticks w)))
                        (Printed (glyph_folder +:+ " Recipe saved to: " +:+
                                  filepath_at (clock w (ticks w)))) body)| |]
  end; cbn [fst snd].
  - repeat first [ apply returns_after_print | apply returns_after_bind; intros ? ].
  - left. by eapply Hret.
  - done.
  - right. split; [done|]. exists msg. unfold bind, print, ret. cbn [fst snd log trace].
    apply last_snoc.
Qed.

End SaveRecipeFaults.

Section SaveRecipeFaultAt.

Lemma open_ok_then {A} (path : string) (k : M A) (w : world)
    (d : list (option exn)) :
  disk w = None :: d ->
  (open_w path ;;; k) w =
  k (with_files (log (Opened path) w) (<[path := ""]> (files w)) d).
Proof. intros H. unfold bind, open_w. by rewrite H. Qed.

Lemma open_raise_then {A} (path : string) (k : M A) (w : world) (e : exn)
    (d : list (option exn)) :
  disk w = Some e :: d ->
  (open_w path ;;; k) w = (Raise e, with_files (log (Opened path) w) (files w) d).
Proof. intros H. unfold bind, open_w. by rewrite H. Qed.

Lemma write_ok_then {A} (path s : string) (k : M A) (w0 : world)
    (fs : gmap string string) (d : list (option exn)) (cur : string) :
  (write path s ;;; k) (with_files w0 (<[path := cur]> fs) (None :: d)) =
  k (with_files w0 (<[path := cur +:+ s]> fs) d).
Proof.
  unfold bind, write. cbn [disk files with_files next_fault].
  by rewrite lookup_insert_eq, insert_insert_eq.
Qed.

Lemma write_raise_then {A} (path s : string) (k : M A) (w0 : world)
    (fs : gmap string string) (e : exn) (d : list (option exn)) :
  (write path s ;;; k) (with_files w0 fs (Some e :: d)) =
  (Raise e, with_files w0 fs d).
Proof. reflexivity. Qed.

Ltac run_writes :=
  repeat first
    [ rewrite bind_assoc
    | rewrite getitem_then; cbv beta
    | rewrite ret_then
    | rewrite write_ok_then
    | rewrite write_raise_then ].

Ltac run_save Hd :=
  unfold save_recipe; rewrite now_then; cbv zeta; unfold try_except;
  first [ erewrite open_raise_then by exact Hd
        | erewrite open_ok_then by exact Hd ];
  cbn [success_result failure_result timestamp input_ingredients
       dietary_restrictions cuisine_type generated_recipe error status
       get_truthy truthy];
  run_writes; cbn [String.eqb Ascii.eqb Bool.eqb]; run_writes.

(** Runs [save_recipe] once, then takes the two cases of the position. *)
Ltac save_then_split Hd :=
  match goal with
  | |- context [save_recipe ?r ?w] =>
      let out := fresh "out" in
      let E := fresh "E" in
      set (out := save_recipe r w);
      assert (E : save_recipe r w = out) by reflexivity;
      clearbody out; revert E; run_save Hd; intros <-
  end;
  cbn [file_operations success_result failure_result dietary_restrictions
       cuisine_type get_truthy truthy Nat.add Nat.sub];
  (split; intros Hk; [try (exfalso; lia)|try (exfalso; lia)]).

(** A dict of [generate_recipe] on a disk whose first fault is the
    operation number [k] (from 0, the [open]). *)
Lemma save_recipe_fault_at (r : recipe_dict) (w : world) (k : nat) (e : exn)
    (rest : list (option exn)) :
  (exists ts ingredients d c t, r = success_result ts ingredients d c t) \/
  (exists ts ingredients msg, r = failure_result ts ingredients msg) ->
  disk w = replicate k None ++ Some e :: rest ->
  (k < file_operations r ->
   disk (save_recipe r w).2 = rest /\
   match e with
   | Exception msg =>
       (save_recipe r w).1 = Ok "" /\
       last (trace (save_recipe r w).2) =
       Some (Printed (glyph_cross +:+ " Error saving recipe: " +:+ msg))
   | KeyboardInterrupt => (save_recipe r w).1 = Raise KeyboardInterrupt
   end) /\
  (file_operations r <= k ->
   (save_recipe r w).1 = Ok (filename_at (clock w (ticks w))) /\
   disk (save_recipe r w).2 = replicate (k - file_operations r) None ++ Some e :: rest).
Proof.
  intros [(ts & ingredients & d & c & t & ->)|(ts & ingredients & msg & ->)] Hd.
  - destruct d as [|d0 d'], c as [|c0 c'];
      destruct k as [|[|[|[|[|[|[|[|k]]]]]]]];
      cbn [replicate app] in Hd; save_then_split Hd;
      try (destruct e as [|msg]); unfold bind, print, ret;
      cbn [fst snd disk trace log with_files];
      rewrite ?Nat.sub_0_r; repeat split; try done; apply last_snoc.
  - destruct k as [|[|[|[|[|[|k]]]]]];
      cbn [replicate app] in Hd; save_then_split Hd;
      try (destruct e as [|m]); unfold bind, print, ret;
      cbn [fst snd disk trace log with_files];
      rewrite ?Nat.sub_0_r; repeat split; try done; apply last_snoc.
Qed.

End SaveRecipeFaultAt.

(** C2: with a disk that works, the file [save_recipe] writes for a
    success dict is the format of section 6 around the recipe text, the
    preference lines being there for the values that are not empty, and
    the file it writes for an error dict is the same format around
    [Error: <message>]. *)
Theorem save_recipe_writes_format (w : world) (ts : string)
    (ingredients : list string) (d c recipe_text msg : string) :
  no_fault (disk w) = true ->
  let dt := clock w (ticks w) in
  let saved := save_recipe (success_result ts ingredients d c recipe_text) w in
  let failed := save_recipe (failure_result ts ingredients msg) w in
  (saved.1 = Ok (filename_at dt) /\
   files saved.2 !! filepath_at dt =
   Some (artifact_format ts ingredients d c recipe_text)) /\
  (failed.1 = Ok (filename_at dt) /\
   files failed.2 !! filepath_at dt =
   Some (artifact_format ts ingredients "" "" ("Error: " +:+ msg))).
Proof.
  intros H dt saved failed. subst saved failed.
  destruct (save_recipe_success ts ingredients d c recipe_text w H) as [f1 ->].
  destruct (save_recipe_failure ts ingredients msg w H) as [f2 ->].
  cbn [fst snd files log with_files]. fold dt.
  by rewrite !lookup_insert_eq.
Qed.

Lemma save_recipe_writes_format_witness :
  let w := sample_world [] (Returns (HasText "Biryani")) [] in
  files (save_recipe (success_result "2024-03-09T07:05:00" ["chicken"; "rice"]
                        "" "Indian" "Chicken Biryani...") w).2
    !! "generated_recipes/recipe_20240309_070500.txt" =
  Some (artifact_format "2024-03-09T07:05:00" ["chicken"; "rice"] "" "Indian"
          "Chicken Biryani...").
Proof.
  intros w.
  apply (save_recipe_writes_format w "2024-03-09T07:05:00" ["chicken"; "rice"]
           "" "Indian" "Chicken Biryani..." "network error" eq_refl).
Defined.

(** C10: an error dict from [generate_recipe] has no entry for the dietary
    restrictions and none for the cuisine type, whatever the user asked
    for, and the file saved from it goes from the ingredients line
    straight to the separator. *)
Theorem failure_artifact_has_no_preferences (ingredients : list string)
    (d c : string) (w w1 : world) (r : recipe_dict) :
  generate_recipe ingredients d c w = (Ok r, w1) ->
  status r = Some "error" ->
  dietary_restrictions r = None /\ cuisine_type r = None /\
  exists ts msg,
    timestamp r = Some ts /\ error r = Some msg /\
    forall w2, no_fault (disk w2) = true ->
      files (save_recipe r w2).2 !! filepath_at (clock w2 (ticks w2)) =
      Some ("=== AI Generated Recipe ===" +:+ nl +:+ nl +:+
            "Generated on: " +:+ ts +:+ nl +:+
            "Input ingredients: " +:+ join ", " ingredients +:+ nl +:+
            nl +:+ repeat_str "=" 50 +:+ nl +:+ nl +:+
            "Error: " +:+ msg).
Proof.
  intros Hg Hs.
  destruct (generate_recipe_result _ _ _ _ _ _ Hg)
    as [(ts & t & -> & _)|(ts & msg & ->)]; [done|].
  split; [done|]. split; [done|]. exists ts, msg. split; [done|]. split; [done|].
  intros w2 H2.
  destruct (save_recipe_failure ts ingredients msg w2 H2) as [f ->].
  cbn [fst snd files log with_files]. by rewrite lookup_insert_eq.
Qed.

Lemma failure_artifact_has_no_preferences_witness :
  exists r w1,
    generate_recipe ["egg"] "vegan" "Indian"
      (sample_world [] (Fails (Exception "network error")) []) = (Ok r, w1) /\
    dietary_restrictions r = None /\ cuisine_type r = None.
Proof.
  eexists _, _. split; [reflexivity|].
  pose proof (failure_artifact_has_no_preferences ["egg"] "vegan" "Indian"
                (sample_world [] (Fails (Exception "network error")) [])
                _ _ eq_refl eq_refl) as (H1 & H2 & _).
  exact (conj H1 H2).
Defined.

(** C8, as stated, fails: when the file cannot be opened the value
    returned is the empty string, which describes nothing. *)
Lemma save_recipe_failure_not_described :
  ~ descriptive_failure
      (save_recipe (success_result "2024-03-09T07:05:00" ["egg"] "" "" "Omelette")
         (sample_world [] (Returns (HasText "Omelette"))
            [Some (Exception "No space left on device")])).1
      "No space left on device".
Proof.
  rewrite (save_recipe_open_fails _ _ "No space left on device" []) by done.
  intros (v & [= <-] & Hv & _). by apply Hv.
Qed.

(** C8, amended: [save_recipe] lets nothing but a [KeyboardInterrupt]
    through.  It returns either the file name built from the reading of the
    clock, which has the form [recipe_<YYYYMMDD_HHMMSS>.txt], after the
    message that the file was saved, or the empty string after printing
    [Error saving recipe: <str(e)>]; the first when the disk works and the
    dict is one of [generate_recipe], the second when [open] raises an
    [Exception], the files being left as they were.  Whatever the dict,
    when a file operation, the [open] or a [write], raises an [Exception],
    that is the last operation, its text is printed and the empty string
    returned (a [KeyboardInterrupt] goes through).  For a dict of
    [generate_recipe] the operations are counted: a first fault of the
    disk at one of them is met, with that outcome, and a fault further on
    is not met and the file name is returned. *)
Theorem save_recipe_outcomes (r : recipe_dict) (w : world) :
  plausible (clock w (ticks w)) ->
  let dt := clock w (ticks w) in
  matches_recipe_pattern (filename_at dt) = true /\
  match (save_recipe r w).1 with
  | Ok v =>
      (v = filename_at dt /\
       last (trace (save_recipe r w).2) =
       Some (Printed (glyph_folder +:+ " Recipe saved to: " +:+ filepath_at dt))) \/
      (v = "" /\
       exists msg, last (trace (save_recipe r w).2) =
                   Some (Printed (glyph_cross +:+ " Error saving recipe: " +:+ msg)))
  | Raise e => e = KeyboardInterrupt
  end /\
  (no_fault (disk w) = true ->
   (exists ts ingredients d c t, r = success_result ts ingredients d c t) \/
   (exists ts ingredients msg, r = failure_result ts ingredients msg) ->
   (save_recipe r w).1 = Ok (filename_at dt)) /\
  (forall msg rest, disk w = Some (Exception msg) :: rest ->
     (save_recipe r w).1 = Ok "" /\
     files (save_recipe r w).2 = files w /\
     last (trace (save_recipe r w).2) =
     Some (Printed (glyph_cross +:+ " Error saving recipe: " +:+ msg))) /\
  (exists used,
     disk w = used ++ disk (save_recipe r w).2 /\
     (no_fault used = true \/
      exists pre e, used = pre ++ [Some e] /\ no_fault pre = true /\
        match e with
        | Exception msg =>
            (save_recipe r w).1 = Ok "" /\
            last (trace (save_recipe r w).2) =
            Some (Printed (glyph_cross +:+ " Error saving recipe: " +:+ msg))
        | KeyboardInterrupt => (save_recipe r w).1 = Raise KeyboardInterrupt
        end)) /\
  (forall k e rest,
     (exists ts ingredients d c t, r = success_result ts ingredients d c t) \/
     (exists ts ingredients msg, r = failure_result ts ingredients msg) ->
     disk w = replicate k None ++ Some e :: rest ->
     (k < file_operations r ->
      disk (save_recipe r w).2 = rest /\
      match e with
      | Exception msg =>
          (save_recipe r w).1 = Ok "" /\
          last (trace (save_recipe r w).2) =
          Some (Printed (glyph_cross +:+ " Error saving recipe: " +:+ msg))
      | KeyboardInterrupt => (save_recipe r w).1 = Raise KeyboardInterrupt
      end) /\
     (file_operations r <= k ->
      (save_recipe r w).1 = Ok (filename_at dt) /\
      disk (save_recipe r w).2 =
      replicate (k - file_operations r) None ++ Some e :: rest)).
Proof.
  intros Hp dt. split; [by apply filename_matches|].
  split; [apply save_recipe_outcome_exact|]. split; [|split; [|split]].
  - intros H [(ts & ingredients & d & c & t & ->)|(ts & ingredients & msg & ->)].
    + by destruct (save_recipe_success ts ingredients d c t w H) as [f ->].
    + by destruct (save_recipe_failure ts ingredients msg w H) as [f ->].
  - intros msg rest H. rewrite (save_recipe_open_fails r w msg rest H).
    cbn [fst snd files log with_files trace]. split; [done|]. split; [done|].
    apply last_snoc.
  - apply save_recipe_meets_faults.
  - intros k e rest Hr Hd. by apply save_recipe_fault_at.
Qed.

Lemma save_recipe_outcomes_witness :
  matches_recipe_pattern (filename_at sample_time) = true /\
  (save_recipe (success_result "2024-03-09T07:05:00" ["egg"] "" "" "Omelette")
     (sample_world [] (Returns (HasText "Omelette"))
        [None; None; None; Some (Exception "No space left on device")])).1 = Ok "".
Proof.
  assert (Hp : plausible sample_time) by (unfold plausible; simpl; lia).
  split.
  - exact (proj1 (save_recipe_outcomes
                    (success_result "2024-03-09T07:05:00" ["egg"] "" "" "Omelette")
                    (sample_world [] (Returns (HasText "Omelette")) []) Hp)).
  - pose proof (save_recipe_outcomes
                  (success_result "2024-03-09T07:05:00" ["egg"] "" "" "Omelette")
                  (sample_world [] (Returns (HasText "Omelette"))
                     [None; None; None; Some (Exception "No space left on device")])
                  Hp) as (_ & _ & _ & _ & _ & H).
    destruct (H 3 (Exception "No space left on device") []) as [Hmet _].
    + left. by exists "2024-03-09T07:05:00", ["egg"], "", "", "Omelette".
    + reflexivity.
    + refine (proj1 (proj2 (Hmet _))). cbn. lia.
Defined.

(* ===================================================================== *)
(** ** How a computation takes keys from the keyboard *)
(* ===================================================================== *)

Section Reads.

Lemma took_raise {A B} (used : list keyboard) (e : exn) :
  took used (Raise e : result A) -> took used (Raise e : result B).
Proof.
  inversion 1; subst; [by apply took_lines|by apply took_interrupt|by apply took_eof].
Qed.

Lemma took_ok_lines {A} (used : list keyboard) (a : A) :
  took used (Ok a) -> forallb is_line used = true.
Proof. by inversion 1. Qed.

Lemma took_app {A} (used1 used2 : list keyboard) (x : result A) :
  forallb is_line used1 = true -> took used2 x -> took (used1 ++ used2) x.
Proof.
  intros H1. inversion 1; subst.
  - apply took_lines. by rewrite forallb_app, H1.
  - rewrite app_assoc. apply took_interrupt. by rewrite forallb_app, H1.
  - rewrite app_assoc. apply took_eof. by rewrite forallb_app, H1.
Qed.

Lemma reads_of_keys {A} (m : M A) : stable same_keys m -> reads m.
Proof.
  intros H w. exists []. split; [by rewrite (H w)|by apply took_lines].
Qed.

Lemma reads_ret {A} (a : A) : reads (ret a).
Proof. apply reads_of_keys, stable_ret, _. Qed.

Lemma reads_print (s : string) : reads (print s).
Proof. apply reads_of_keys, keys_print. Qed.

Lemma reads_input (p : string) : reads (input p).
Proof.
  intros w. unfold input.
  destruct (stdin w) as [|[s| |] rest] eqn:E; cbn [fst snd stdin with_stdin log].
  - exists []. split; [by rewrite E|by apply took_lines].
  - exists [Line s]. split; [done|by apply took_lines].
  - exists [CtrlC]. split; [done|]. by apply (took_interrupt []).
  - exists [CtrlD]. split; [done|]. by apply (took_eof []).
Qed.

Lemma reads_bind {A B} (m : M A) (f : A -> M B) :
  reads m -> (forall a, reads (f a)) -> reads (bind m f).
Proof.
  intros Hm Hf w. unfold bind. destruct (Hm w) as (u1 & E1 & T1).
  destruct (m w) as [[a|e] w1]; cbn [fst snd] in *.
  - destruct (Hf a w1) as (u2 & E2 & T2). exists (u1 ++ u2). split.
    + by rewrite E1, E2 at 1; rewrite app_assoc.
    + apply took_app; [by eapply took_ok_lines|done].
  - exists u1. split; [done|]. by eapply took_raise.
Qed.

Lemma reads_length {A} (m : M A) (w : world) :
  reads m -> length (stdin (m w).2) <= length (stdin w).
Proof. intros H. destruct (H w) as (u & E & _). rewrite E at 1. rewrite length_app. lia. Qed.

Lemma reads_ingredient_loop (fuel : nat) (ingredients : list string) :
  reads (ingredient_loop fuel ingredients).
Proof.
  revert ingredients.
  assert (Hstep : forall again, (forall l, reads (again l)) ->
                  forall l, reads (ingredient_step again l)).
  { intros again Ha l. apply reads_bind; [apply reads_input|]. intros line. cbv zeta.
    destruct (String.eqb (strip line) ""); [|apply Ha].
    destruct l; [|apply reads_ret].
    apply reads_bind; [apply reads_print|]. intros _. apply Ha. }
  induction fuel as [|fuel IH]; intros l; cbn [ingredient_loop];
    apply Hstep; [intros; apply reads_ret|done].
Qed.

Lemma reads_collecting (ingredients : list string) : reads (collecting ingredients).
Proof. intros w. unfold collecting. apply reads_ingredient_loop. Qed.

Ltac reads_auto :=
  repeat first
    [ apply reads_ret | apply reads_print | apply reads_input
    | apply reads_collecting
    | apply reads_of_keys, keys_generate_recipe
    | apply reads_of_keys, keys_save_recipe
    | apply reads_of_keys, keys_display_recipe
    | apply reads_of_keys, stable_getitem, _
    | apply reads_bind
    | match goal with
      | |- reads (if ?b then _ else _) => destruct b
      | |- reads (let _ := _ in _) => cbv zeta
      | |- forall _, _ => intro
      end ].

Lemma reads_get_ingredients : reads get_ingredients_from_user.
Proof. unfold get_ingredients_from_user. reads_auto. Qed.

Lemma reads_after_ingredients (ingredients : list string) :
  reads (prefs <- get_additional_preferences ;;
         recipe_data <- generate_recipe ingredients prefs.1 prefs.2 ;;
         display_recipe recipe_data ;;;
         offer_save recipe_data ;;;
         continue_or_exit).
Proof.
  unfold get_additional_preferences, offer_save, continue_or_exit. reads_auto.
Qed.

Lemma reads_iteration : reads iteration.
Proof.
  unfold iteration. apply reads_bind; [apply reads_get_ingredients|].
  apply reads_after_ingredients.
Qed.

Lemma takes_one_input_bind {A} (p : string) (f : string -> M A) :
  (forall a, reads (f a)) -> takes_one (bind (input p) f).
Proof.
  intros Hf w Hne. unfold bind, input.
  destruct (stdin w) as [|[line| |] rest] eqn:E; [done| | |];
    cbn [fst snd stdin with_stdin length]; try lia.
  pose proof (reads_length (f line)
                (with_stdin (log (Prompted p) w) rest) (Hf line)) as Hl.
  cbn [stdin with_stdin] in Hl. lia.
Qed.

Lemma takes_one_print_bind {A} (s : string) (m : M A) :
  takes_one m -> takes_one (print s ;;; m).
Proof. intros Hm w Hne. unfold bind, print. by apply (Hm (log (Printed s) w)). Qed.

Lemma takes_one_bind {A B} (m : M A) (f : A -> M B) :
  takes_one m -> (forall a, reads (f a)) -> takes_one (bind m f).
Proof.
  intros Hm Hf w Hne. unfold bind. specialize (Hm w Hne).
  destruct (m w) as [[a|e] w1]; cbn [fst snd] in *; [|done].
  pose proof (reads_length (f a) w1 (Hf a)). lia.
Qed.

Lemma takes_one_collecting (ingredients : list string) :
  takes_one (collecting ingredients).
Proof.
  intros w Hne. rewrite collecting_unfold. revert w Hne.
  unfold ingredient_step. apply takes_one_input_bind.
  intros line. cbv zeta. destruct (String.eqb (strip line) ""); reads_auto.
Qed.

(** A round takes at least one key when there is one. *)
Lemma iteration_takes_one : takes_one iteration.
Proof.
  unfold iteration. apply takes_one_bind; [|apply reads_after_ingredients].
  unfold get_ingredients_from_user.
  do 2 apply takes_one_print_bind. apply takes_one_collecting.
Qed.

End Reads.

(* ===================================================================== *)
(** ** run_interactive_mode: the loop boundary *)
(* ===================================================================== *)

Section LoopBoundary.

Lemma lines_before_interrupt (used t : list keyboard) (ls : list string)
    (rest : list keyboard) :
  forallb is_line used = true ->
  used ++ t = map Line ls ++ CtrlC :: rest ->
  exists ls', t = map Line ls' ++ CtrlC :: rest /\ length ls' <= length ls.
Proof.
  revert ls. induction used as [|k used IH]; intros ls Hu E.
  - exists ls. by split.
  - destruct k as [s| |]; try done. destruct ls as [|s' ls]; [done|].
    cbn in E. injection E as _ E. destruct (IH ls Hu E) as (ls' & -> & Hl).
    exists ls'. split; [done|]. cbn. lia.
Qed.

Lemma first_stop_is_interrupt (pre t : list keyboard) (k : keyboard)
    (ls : list string) (rest : list keyboard) :
  forallb is_line pre = true -> is_line k = false ->
  pre ++ k :: t = map Line ls ++ CtrlC :: rest ->
  k = CtrlC /\ t = rest.
Proof.
  revert ls. induction pre as [|x pre IH]; intros ls Hp Hk E.
  - destruct ls as [|s ls]; cbn in E; [by injection E as -> ->|].
    injection E as -> _. done.
  - destruct x as [s| |]; try done. destruct ls as [|s' ls]; [done|].
    cbn in E. injection E as _ E. by apply (IH ls).
Qed.

(** A round begun with lines and then Ctrl-C to come either leaves the
    Ctrl-C to come, having taken at least one line, or takes it and ends
    with [KeyboardInterrupt]. *)
Lemma iteration_shape (w : world) (ls : list string) (rest : list keyboard) :
  stdin w = map Line ls ++ CtrlC :: rest ->
  (exists ls', length ls' < length ls /\
               stdin (iteration w).2 = map Line ls' ++ CtrlC :: rest) \/
  ((iteration w).1 = Raise KeyboardInterrupt /\ stdin (iteration w).2 = rest).
Proof.
  intros E. destruct (reads_iteration w) as (used & Eu & T).
  assert (Hne : stdin w <> []) by (rewrite E; by destruct ls).
  pose proof (iteration_takes_one w Hne) as Hlt.
  destruct (iteration w) as [x w1]. cbn [fst snd] in *.
  rewrite E in Eu. symmetry in Eu.
  inversion T as [u x' Hu|pre Hp|pre msg Hp]; subst.
  - left. destruct (lines_before_interrupt _ _ _ _ Hu Eu) as (ls' & E' & Hl).
    exists ls'. split; [|done]. rewrite E, E' in Hlt.
    rewrite !length_app, !length_map in Hlt. cbn in Hlt. lia.
  - right. rewrite <- app_assoc in Eu. cbn in Eu.
    by destruct (first_stop_is_interrupt pre _ CtrlC _ _ Hp eq_refl Eu) as [_ ->].
  - rewrite <- app_assoc in Eu. cbn in Eu.
    by destruct (first_stop_is_interrupt pre _ CtrlD _ _ Hp eq_refl Eu) as [? _].
Qed.

Lemma loop_body_unexpected (w w1 : world) (msg : string) :
  iteration w = (Raise (Exception msg), w1) ->
  loop_body w =
  (Ok Continue, log (Printed (glyph_cross +:+ " Unexpected error: " +:+ msg)) w1).
Proof. intros H. unfold loop_body, try_except2. by rewrite H. Qed.

Lemma loop_body_interrupt (w w1 : world) :
  iteration w = (Raise KeyboardInterrupt, w1) ->
  loop_body w = (Ok Break, log (Printed farewell) w1).
Proof. intros H. unfold loop_body, try_except2. by rewrite H. Qed.

Lemma loop_body_ok (w w1 : world) (c : control) :
  iteration w = (Ok c, w1) -> loop_body w = (Ok c, w1).
Proof. intros H. unfold loop_body, try_except2. by rewrite H. Qed.

(** With lines and then Ctrl-C to come, the loop is left. *)
Lemma session_loop_ends (ls : list string) (w : world) (rest : list keyboard) :
  stdin w = map Line ls ++ CtrlC :: rest ->
  exists fuel w',
    session_loop fuel w = Some (Ok tt, w') /\
    (length (stdin w') <= length rest ->
     stdin w' = rest /\ last (trace w') = Some (Printed farewell)).
Proof.
  remember (length ls) as n eqn:Hn. revert ls w Hn.
  induction n as [n IH] using lt_wf_ind. intros ls w -> E.
  destruct (iteration_shape w ls rest E) as [(ls' & Hl & E')|[Hx E']];
    destruct (iteration w) as [[[|]|[|msg]] w1] eqn:Ei; cbn [fst snd] in *;
    try done.
  - exists 1, w1. cbn [session_loop]. rewrite (loop_body_ok _ _ _ Ei).
    split; [done|]. rewrite E', length_app. cbn. lia.
  - destruct (IH (length ls') Hl ls' w1 eq_refl E') as (fuel & w' & Hs & Hw).
    exists (S fuel), w'. cbn [session_loop]. by rewrite (loop_body_ok _ _ _ Ei).
  - exists 1, (log (Printed farewell) w1). cbn [session_loop].
    rewrite (loop_body_interrupt _ _ Ei). split; [done|].
    cbn [stdin log]. rewrite E', length_app. cbn. lia.
  - destruct (IH (length ls') Hl ls'
                (log (Printed (glyph_cross +:+ " Unexpected error: " +:+ msg)) w1)
                eq_refl E') as (fuel & w' & Hs & Hw).
    exists (S fuel), w'. cbn [session_loop].
    by rewrite (loop_body_unexpected _ _ _ Ei).
  - exists 1, (log (Printed farewell) w1). cbn [session_loop].
    rewrite (loop_body_interrupt _ _ Ei). split; [done|]. intros _.
    split; [done|]. cbn [trace log]. apply last_snoc.
Qed.

End LoopBoundary.

(** C9: an [Exception] that leaves a round is caught at the loop boundary:
    it is printed as [Unexpected error: <str(e)>] and the loop goes on with
    the next round; a [KeyboardInterrupt] that leaves a round ends the loop
    with the farewell.  And whenever lines and then a Ctrl-C are to come at
    the keyboard, the session ends with [Happy cooking!]; if it got as far
    as the Ctrl-C, at whichever call of [input], nothing after the Ctrl-C
    was read and the farewell was printed just before. *)
Theorem loop_boundary (w : world) :
  (forall msg w1, iteration w = (Raise (Exception msg), w1) ->
     let w2 := log (Printed (glyph_cross +:+ " Unexpected error: " +:+ msg)) w1 in
     loop_body w = (Ok Continue, w2) /\
     forall fuel, session_loop (S fuel) w = session_loop fuel w2) /\
  (forall w1, iteration w = (Raise KeyboardInterrupt, w1) ->
     forall fuel, session_loop (S fuel) w = Some (Ok tt, log (Printed farewell) w1)) /\
  (forall ls rest, stdin w = map Line ls ++ CtrlC :: rest ->
     exists fuel w',
       run_interactive_mode fuel w = Some (Ok tt, w') /\
       last (trace w') = Some (Printed happy_cooking) /\
       (length (stdin w') <= length rest ->
        stdin w' = rest /\
        exists tr, trace w' = tr ++ [Printed farewell; Printed happy_cooking])).
Proof.
  split; [|split].
  - intros msg w1 H w2. pose proof (loop_body_unexpected w w1 msg H) as Hb.
    split; [done|]. intros fuel. cbn [session_loop]. by rewrite Hb.
  - intros w1 H fuel. cbn [session_loop]. by rewrite (loop_body_interrupt w w1 H).
  - intros ls rest E. unfold run_interactive_mode, bind, print.
    set (w0 := log _ (log _ w)).
    destruct (session_loop_ends ls w0 rest E) as (fuel & w1 & Hs & Hw).
    exists fuel, (log (Printed happy_cooking) w1). rewrite Hs.
    split; [done|]. split; [apply last_snoc|]. cbn [stdin log trace].
    intros Hl. destruct (Hw Hl) as [-> Hf]. split; [done|].
    apply last_Some in Hf as [tr ->]. exists tr. by rewrite <- app_assoc.
Qed.

Lemma loop_boundary_witness :
  (exists fuel w',
     run_interactive_mode fuel
       (sample_world [Line "egg"; Line ""; Line "vegan"; CtrlC; Line "never read"]
          (Returns (HasText "Omelette")) []) = Some (Ok tt, w') /\
     last (trace w') = Some (Printed happy_cooking)) /\
  loop_body (sample_world [] (Returns (HasText "Omelette")) []) =
  (Ok Continue,
   log (Printed (glyph_cross +:+ " Unexpected error: " +:+ eof_message))
     (iteration (sample_world [] (Returns (HasText "Omelette")) [])).2) /\
  session_loop 1 (sample_world [CtrlC] (Returns (HasText "Omelette")) []) =
  Some (Ok tt,
        log (Printed farewell)
          (iteration (sample_world [CtrlC] (Returns (HasText "Omelette")) [])).2).
Proof.
  split; [|split].
  - destruct (proj2 (proj2 (loop_boundary
                (sample_world [Line "egg"; Line ""; Line "vegan"; CtrlC; Line "never read"]
                   (Returns (HasText "Omelette")) [])))
                ["egg"; ""; "vegan"] [Line "never read"] eq_refl)
      as (fuel & w' & H1 & H2 & _).
    by exists fuel, w'.
  - exact (proj1 (proj1 (loop_boundary (sample_world [] (Returns (HasText "Omelette")) []))
                    eof_message _ eq_refl)).
  - exact (proj1 (proj2 (loop_boundary (sample_world [CtrlC] (Returns (HasText "Omelette")) [])))
             _ eq_refl 0).
Defined.

(* ===================================================================== *)
(** ** The prompt, the ingredients and the question whether to go on *)
(* ===================================================================== *)

Section Prompt.

Lemma join_cons (sep y : string) (l : list string) :
  l <> [] -> join sep (y :: l) = y +:+ sep +:+ join sep l.
Proof. by destruct l. Qed.

Lemma join_at (sep x : string) (l1 l2 : list string) :
  join sep (l1 ++ x :: l2) =
  (match l1 with [] => "" | _ => join sep l1 +:+ sep end) +:+ x +:+
  (match l2 with [] => "" | _ => sep +:+ join sep l2 end).
Proof.
  induction l1 as [|y l1 IH].
  - destruct l2 as [|z l2]; [cbn [app join]; by rewrite append_nil_r|].
    cbn [app]. by rewrite join_cons.
  - cbn [app]. rewrite join_cons by by destruct l1. rewrite IH.
    destruct l1 as [|z l1]; [cbn [join]; by rewrite append_assoc|].
    rewrite (join_cons sep y (z :: l1)) by done. by rewrite !append_assoc.
Qed.

Lemma prompt_split (ingredients : list string) (d c : string) :
  generate_recipe_prompt ingredients d c =
  prompt_head +:+ join ", " ingredients +:+
  prompt_tail (if truthy d then d else "None") (if truthy c then c else "Any").
Proof. reflexivity. Qed.

Lemma requests_snoc (tr : list event) (ev : event) :
  requests (tr ++ [ev]) =
  requests tr ++ match ev with Requested p => [p] | _ => [] end.
Proof. unfold requests. rewrite flat_map_app. cbn. by rewrite app_nil_r. Qed.

End Prompt.

(** C6, as stated, fails: the template has the word salt in it, so the
    ingredient salt is in the prompt twice. *)
Lemma prompt_mentions_salt_twice :
  ~ (forall ingredients d c, ingredients <> [] ->
     forall x, x ∈ ingredients ->
       occurrences x (generate_recipe_prompt ingredients d c) = 1).
Proof.
  intros H. specialize (H ["salt"] "" "" ltac:(done) "salt" ltac:(by left)).
  vm_compute in H. discriminate H.
Qed.

(** C6, amended: the prompt is the template with the ingredients, joined
    by comma and space in the order of the list, put in after
    [ingredients: ]; so it holds the joined list and every ingredient at
    least once, and of two ingredients the one earlier in the list comes
    earlier in the prompt. *)
Theorem prompt_holds_joined_ingredients (ingredients : list string) (d c : string) :
  let prompt := generate_recipe_prompt ingredients d c in
  prompt = prompt_head +:+ join ", " ingredients +:+
           prompt_tail (if truthy d then d else "None") (if truthy c then c else "Any") /\
  contains (join ", " ingredients) prompt = true /\
  (forall z, z ∈ ingredients -> contains z prompt = true) /\
  (forall l1 x l2 y l3, ingredients = l1 ++ x :: l2 ++ y :: l3 ->
     join ", " ingredients =
     (match l1 with [] => "" | _ => join ", " l1 +:+ ", " end) +:+ x +:+
     ", " +:+
     (match l2 with [] => "" | _ => join ", " l2 +:+ ", " end) +:+ y +:+
     (match l3 with [] => "" | _ => ", " +:+ join ", " l3 end) /\
     exists a b e, prompt = a +:+ x +:+ b +:+ y +:+ e).
Proof.
  intros prompt. split; [done|]. split; [apply contains_inside|]. split.
  - intros z Hz. destruct (join_inside ", " z ingredients Hz) as (a & b & Ej).
    subst prompt. rewrite prompt_split. apply contains_trans.
    rewrite Ej. apply contains_inside.
  - intros l1 x l2 y l3 E.
    assert (Ej : join ", " ingredients =
                 (match l1 with [] => "" | _ => join ", " l1 +:+ ", " end) +:+ x +:+
                 ", " +:+
                 (match l2 with [] => "" | _ => join ", " l2 +:+ ", " end) +:+ y +:+
                 (match l3 with [] => "" | _ => ", " +:+ join ", " l3 end)).
    { rewrite E, join_at.
      assert (Em : match l2 ++ y :: l3 with
                   | [] => ""
                   | _ => ", " +:+ join ", " (l2 ++ y :: l3)
                   end = ", " +:+ join ", " (l2 ++ y :: l3)) by by destruct l2.
      by rewrite Em, join_at. }
    split; [exact Ej|].
    exists (prompt_head +:+ match l1 with [] => "" | _ => join ", " l1 +:+ ", " end),
           (", " +:+ match l2 with [] => "" | _ => join ", " l2 +:+ ", " end),
           (match l3 with [] => "" | _ => ", " +:+ join ", " l3 end +:+
            prompt_tail (if truthy d then d else "None") (if truthy c then c else "Any")).
    subst prompt. rewrite prompt_split, Ej. clear.
    generalize (prompt_tail (if truthy d then d else "None")
                  (if truthy c then c else "Any")) as tl.
    intros tl. by rewrite !append_assoc.
Qed.

Lemma prompt_holds_joined_ingredients_witness :
  contains "rice" (generate_recipe_prompt ["chicken"; "rice"] "" "Indian") = true /\
  join ", " ["chicken"; "rice"] = "chicken, rice".
Proof.
  pose proof (prompt_holds_joined_ingredients ["chicken"; "rice"] "" "Indian")
    as (_ & _ & Hin & Hord).
  split.
  - apply Hin. right. left.
  - exact (proj1 (Hord [] "chicken" [] "rice" [] eq_refl)).
Defined.

(** C7: the prompt is a function of the ingredients and the two
    preferences alone: from whatever world [generate_recipe] is called,
    the one request it sends is that prompt; an empty dietary string is
    rendered as [None] and an empty cuisine string as [Any]. *)
Theorem prompt_is_pure (ingredients : list string) (d c : string) :
  (forall w, requests (trace (generate_recipe ingredients d c w).2) =
             requests (trace w) ++ [generate_recipe_prompt ingredients d c]) /\
  generate_recipe_prompt ingredients "" c = generate_recipe_prompt ingredients "None" c /\
  generate_recipe_prompt ingredients d "" = generate_recipe_prompt ingredients d "Any" /\
  contains "- Dietary restrictions: None" (generate_recipe_prompt ingredients "" c) = true /\
  contains "- Cuisine type: Any" (generate_recipe_prompt ingredients d "") = true.
Proof.
  split; [|split; [done|split; [done|split]]].
  - intros w. rewrite generate_recipe_cases. cbv zeta.
    destruct (gemini w (calls w) _) as [[t|msg]|[|msg]];
      cbn [fst snd trace log with_ticks with_calls];
      rewrite ?requests_snoc, ?app_nil_r; reflexivity.
  - rewrite prompt_split. cbn [truthy].
    set (j := join ", " ingredients). set (cs := if truthy c then c else "Any").
    match goal with
    | |- contains ?p ?s = true =>
        assert (E : exists a b, s = a +:+ p +:+ b);
        [|destruct E as (a & b & ->); apply contains_inside]
    end.
    exists (prompt_head +:+ j +:+ nl +:+ indent +:+ nl +:+ indent +:+
            "Additional preferences:" +:+ nl +:+ indent),
           (nl +:+ indent +:+ "- Cuisine type: " +:+ cs +:+ prompt_request).
    unfold prompt_tail. rewrite !append_assoc. reflexivity.
  - rewrite prompt_split. cbn [truthy].
    set (j := join ", " ingredients). set (ds := if truthy d then d else "None").
    match goal with
    | |- contains ?p ?s = true =>
        assert (E : exists a b, s = a +:+ p +:+ b);
        [|destruct E as (a & b & ->); apply contains_inside]
    end.
    exists (prompt_head +:+ j +:+ nl +:+ indent +:+ nl +:+ indent +:+
            "Additional preferences:" +:+ nl +:+ indent +:+
            "- Dietary restrictions: " +:+ ds +:+ nl +:+ indent),
           prompt_request.
    unfold prompt_tail. rewrite !append_assoc. reflexivity.
Qed.

(** C3: in the ingredient loop a blank line does not end the collection
    while nothing has been collected (the loop prints its request and goes
    on from there), and it does end it with the list collected so far once
    there is an entry; a line that is not blank adds its trimmed text.  So
    the list [get_ingredients_from_user] returns is never empty and each of
    its entries is a trimmed string that is not empty. *)
Theorem get_ingredients_blank_line (w : world) (blank : string) (rest : list keyboard) :
  stdin w = Line blank :: rest -> strip blank = "" ->
  let w' := with_stdin (log (Prompted "Ingredient: ") w) rest in
  collecting [] w =
  collecting [] (log (Printed "Please enter at least one ingredient.") w') /\
  (forall ingredients, ingredients <> [] ->
     collecting ingredients w = (Ok ingredients, w')) /\
  (forall w0 l w1, get_ingredients_from_user w0 = (Ok l, w1) ->
     l <> [] /\ Forall entry_ok l) /\
  (forall w0 line rest0 ingredients,
     stdin w0 = Line line :: rest0 -> strip line <> "" ->
     collecting ingredients w0 =
     collecting (ingredients ++ [strip line])
       (with_stdin (log (Prompted "Ingredient: ") w0) rest0)).
Proof.
  intros E Hb w'. split; [by apply (collecting_blank_first w blank rest)|].
  split; [intros; by apply (collecting_blank_done w blank rest)|]. split.
  - intros w0 l w1. unfold get_ingredients_from_user, bind, print, collecting.
    cbn [fst snd]. apply ingredient_loop_entries; [done|by apply Forall_nil].
  - intros. by apply collecting_item.
Qed.

Lemma get_ingredients_blank_line_witness :
  let w0 := sample_world [Line "  "; Line " egg "; Line "rice"; Line ""; Line "left"]
              (Returns (HasText "Omelette")) [] in
  (get_ingredients_from_user w0).1 = Ok ["egg"; "rice"] /\
  ["egg"; "rice"] <> [] /\ Forall entry_ok ["egg"; "rice"].
Proof.
  intros w0.
  assert (H : get_ingredients_from_user w0 =
              (Ok ["egg"; "rice"], (get_ingredients_from_user w0).2))
    by (vm_compute; reflexivity).
  split; [by rewrite H|].
  exact (proj1 (proj2 (proj2
           (get_ingredients_blank_line
              (sample_world [Line "  "] (Returns (HasText "Omelette")) []) "  " []
              eq_refl eq_refl)))
         w0 ["egg"; "rice"] _ H).
Defined.

Lemma iteration_split (w : world) :
  iteration w = (before_question ;;; continue_or_exit) w.
Proof.
  unfold iteration, before_question, bind.
  destruct (get_ingredients_from_user w) as [[ingredients|e] w1]; [|done].
  destruct (get_additional_preferences w1) as [[prefs|e] w2]; [|done].
  destruct (generate_recipe ingredients prefs.1 prefs.2 w2) as [[r|e] w3]; [|done].
  destruct (display_recipe r w3) as [[[]|e] w4]; [|done].
  by destruct (offer_save r w4) as [[[]|e] w5].
Qed.

(** C4: at the question whether to go on, the answers [y], [Y], [yes]
    and [YES] (and any answer that is [y] or [yes] once lowered and
    trimmed) send the loop into its next round, which starts with the
    ingredients again; every other answer, [n] and the empty line among
    them, ends the loop. *)
Theorem ask_continue (w : world) (answer : string) (rest : list keyboard) :
  stdin w = Line answer :: rest ->
  let w' := with_stdin
              (log (Prompted continue_prompt)
                 (log (Printed (nl +:+ repeat_str "-" 40)) w)) rest in
  continue_or_exit w = (Ok (if says_yes answer then Continue else Break), w') /\
  (forall w0 fuel, before_question w0 = (Ok tt, w) ->
     session_loop (S fuel) w0 =
     if says_yes answer then session_loop fuel w' else Some (Ok tt, w')) /\
  (says_yes answer = true <->
   strip (lower answer) = "y" \/ strip (lower answer) = "yes") /\
  says_yes (lower answer) = says_yes answer /\
  says_yes (strip answer) = says_yes answer /\
  says_yes "y" = true /\ says_yes "Y" = true /\
  says_yes "yes" = true /\ says_yes "YES" = true /\
  says_yes "n" = false /\ says_yes "" = false /\
  says_yes "anything else" = false.
Proof.
  intros E w'.
  assert (Hc : continue_or_exit w =
               (Ok (if says_yes answer then Continue else Break), w')).
  { unfold continue_or_exit, bind, print, input. cbn [stdin log]. rewrite E.
    by destruct (says_yes answer). }
  split; [done|]. split.
  { intros w0 fuel Hi. cbn [session_loop]. unfold loop_body, try_except2.
    rewrite iteration_split. unfold bind at 1. rewrite Hi, Hc.
    by destruct (says_yes answer). }
  split.
  { unfold says_yes, elem. cbn [existsb]. rewrite orb_false_r, orb_true_iff.
    by rewrite !String.eqb_eq. }
  split; [unfold says_yes; by rewrite lower_idem|].
  split; [unfold says_yes; by rewrite lower_strip, strip_idem|].
  by repeat split.
Qed.

Lemma ask_continue_witness :
  let w0 := sample_world
              [Line "egg"; Line ""; Line ""; Line "Indian"; Line "n"; Line " Yes "; Line "rice"]
              (Returns (HasText "Omelette")) [] in
  let w := (before_question w0).2 in
  exists w',
    continue_or_exit w = (Ok Continue, w') /\
    session_loop 1 w0 = session_loop 0 w'.
Proof.
  intros w0 w.
  assert (Hk : stdin w = [Line " Yes "; Line "rice"]) by (vm_compute; reflexivity).
  assert (Hb : before_question w0 = (Ok tt, w)) by (vm_compute; reflexivity).
  destruct (ask_continue w " Yes " [Line "rice"] Hk) as (Hc & Hs & _).
  eexists. split; [exact Hc|]. exact (Hs w0 0 Hb).
Defined.

(* ===================================================================== *)
(** ** Further properties: the ingredient loop on whole inputs *)
(* ===================================================================== *)

Section WholeInputs.

Global Instance same_outside_preorder : PreOrder same_outside.
Proof.
  split; [done|]. intros x y z (?&?&?&?&?&?) (?&?&?&?&?&?).
  unfold same_outside. repeat split; congruence.
Qed.

Lemma outside_print s : stable same_outside (print s).
Proof. done. Qed.

Lemma outside_input p : stable same_outside (input p).
Proof. intros w. unfold input. by destruct (stdin w) as [|[| |] ?]. Qed.

Lemma outside_collecting (ingredients : list string) :
  stable same_outside (collecting ingredients).
Proof. apply stable_collecting; [apply _|apply outside_input|apply outside_print]. Qed.

Lemma outside_get_ingredients : stable same_outside get_ingredients_from_user.
Proof.
  unfold get_ingredients_from_user.
  repeat (apply stable_bind; [apply _|apply outside_print|intros _]).
  apply outside_collecting.
Qed.

(** Leading blank lines are asked about and passed over. *)
Lemma collecting_skips_blanks (blanks : list string) (w : world) (k : list keyboard) :
  forallb is_blank blanks = true ->
  stdin w = map Line blanks ++ k ->
  exists w', collecting [] w = collecting [] w' /\ stdin w' = k /\
             trace w' = trace w ++ ingredient_events blanks.
Proof.
  revert w. induction blanks as [|b blanks IH]; intros w Hb E.
  - exists w. by rewrite app_nil_r.
  - cbn in Hb. apply andb_prop in Hb as [Hb1 Hb]. cbn in E.
    apply String.eqb_eq in Hb1 as Hs.
    rewrite (collecting_blank_first w b _ E Hs).
    destruct (IH (log (Printed "Please enter at least one ingredient.")
                    (with_stdin (log (Prompted "Ingredient: ") w) (map Line blanks ++ k)))
                Hb eq_refl) as (w' & -> & Hk & Ht).
    exists w'. split; [done|]. split; [done|]. rewrite Ht.
    cbn [trace log with_stdin ingredient_events flat_map].
    rewrite Hb1. by rewrite <- !app_assoc.
Qed.

(** Lines that are not blank are collected, trimmed and in order, up to
    the blank line that ends the list. *)
Lemma collecting_takes_items (goods acc : list string) (w : world)
    (blank : string) (rest : list keyboard) :
  forallb (fun s => negb (is_blank s)) goods = true ->
  acc ++ goods <> [] -> is_blank blank = true ->
  stdin w = map Line goods ++ Line blank :: rest ->
  exists w', collecting acc w = (Ok (acc ++ map strip goods), w') /\ stdin w' = rest /\
             trace w' = trace w ++ ingredient_events goods ++ [Prompted "Ingredient: "].
Proof.
  revert acc w. induction goods as [|g goods IH]; intros acc w Hg Hne Hb E.
  - rewrite app_nil_r in *. cbn in E. apply String.eqb_eq in Hb.
    rewrite (collecting_blank_done w blank rest acc E Hb Hne).
    eexists. split; [done|]. by split.
  - cbn in Hg. apply andb_prop in Hg as [Hg1 Hg]. cbn in E.
    assert (Hs : strip g <> "").
    { intros Hs. unfold is_blank in Hg1. by rewrite Hs in Hg1. }
    rewrite (collecting_item w g _ acc E Hs).
    destruct (IH (acc ++ [strip g])
                (with_stdin (log (Prompted "Ingredient: ") w)
                   (map Line goods ++ Line blank :: rest)) Hg
                ltac:(by destruct acc) Hb eq_refl) as (w' & -> & Hk & Ht).
    exists w'. split; [by rewrite <- app_assoc|]. split; [done|]. rewrite Ht.
    cbn [trace log with_stdin ingredient_events flat_map].
    destruct (is_blank g); [done|]. by rewrite <- !app_assoc.
Qed.

(** Lines that are not blank and then the end of the input: the loop
    reads them all and raises [EOFError]. *)
Lemma collecting_runs_out (goods acc : list string) (w : world) :
  forallb (fun s => negb (is_blank s)) goods = true ->
  stdin w = map Line goods ->
  exists w', collecting acc w = (Raise (Exception eof_message), w') /\ stdin w' = [] /\
             trace w' = trace w ++ ingredient_events goods ++ [Prompted "Ingredient: "].
Proof.
  revert acc w. induction goods as [|g goods IH]; intros acc w Hg E.
  - cbn in E. rewrite collecting_unfold. unfold ingredient_step, bind, input.
    rewrite E. eexists. split; [done|]. by split.
  - cbn in Hg. apply andb_prop in Hg as [Hg1 Hg]. cbn in E.
    assert (Hs : strip g <> "").
    { intros Hs. unfold is_blank in Hg1. by rewrite Hs in Hg1. }
    rewrite (collecting_item w g _ acc E Hs).
    destruct (IH (acc ++ [strip g])
                (with_stdin (log (Prompted "Ingredient: ") w) (map Line goods)) Hg
                eq_refl) as (w' & -> & Hk & Ht).
    exists w'. split; [done|]. split; [done|]. rewrite Ht.
    cbn [trace log with_stdin ingredient_events flat_map].
    destruct (is_blank g); [done|]. by rewrite <- !app_assoc.
Qed.

Lemma get_ingredients_items (w : world) (blanks goods : list string)
    (blank : string) (rest : list keyboard) :
  forallb is_blank blanks = true ->
  forallb (fun s => negb (is_blank s)) goods = true -> goods <> [] ->
  is_blank blank = true ->
  stdin w = map Line blanks ++ map Line goods ++ Line blank :: rest ->
  exists w',
    get_ingredients_from_user w = (Ok (map strip goods), w') /\
    stdin w' = rest /\
    trace w' =
    trace w ++
    [Printed (nl +:+ "=== AI Recipe Cookbook ===");
     Printed "Enter your ingredients (one per line, press Enter twice when done):"] ++
    ingredient_events (blanks ++ goods) ++ [Prompted "Ingredient: "].
Proof.
  intros Hb Hg Hne Hbl E.
  unfold get_ingredients_from_user, bind, print.
  set (w0 := log _ (log _ w)).
  destruct (collecting_skips_blanks blanks w0 _ Hb E) as (w1 & E1 & Hk1 & Ht1).
  destruct (collecting_takes_items goods [] w1 blank rest Hg Hne Hbl Hk1)
    as (w2 & E2 & Hk2 & Ht2).
  rewrite E1, E2. exists w2. split; [done|]. split; [done|].
  rewrite Ht2, Ht1. unfold ingredient_events. rewrite flat_map_app.
  subst w0. cbn [trace log]. by rewrite <- !app_assoc.
Qed.

Lemma get_ingredients_eof (w : world) (blanks goods : list string) :
  forallb is_blank blanks = true ->
  forallb (fun s => negb (is_blank s)) goods = true ->
  stdin w = map Line blanks ++ map Line goods ->
  exists w',
    get_ingredients_from_user w = (Raise (Exception eof_message), w') /\
    stdin w' = [].
Proof.
  intros Hb Hg E.
  unfold get_ingredients_from_user, bind, print.
  set (w0 := log _ (log _ w)).
  destruct (collecting_skips_blanks blanks w0 _ Hb E) as (w1 & E1 & Hk1 & Ht1).
  destruct (collecting_runs_out goods [] w1 Hg Hk1) as (w2 & E2 & Hk2 & Ht2).
  rewrite E1, E2. exists w2. by split.
Qed.

End WholeInputs.

(** X1: with blank lines, then lines that are not blank (at least one),
    then a blank line to come at the keyboard, [get_ingredients_from_user]
    returns the trimmed texts of the lines that are not blank, in their
    order and with repetitions kept; it leaves what follows the closing
    blank line unread, shows its prompt once per line taken and its request
    once per leading blank line, and changes nothing else. *)
Theorem get_ingredients_returns_items (w : world) (blanks goods : list string)
    (blank : string) (rest : list keyboard) :
  forallb is_blank blanks = true ->
  forallb (fun s => negb (is_blank s)) goods = true -> goods <> [] ->
  is_blank blank = true ->
  stdin w = map Line blanks ++ map Line goods ++ Line blank :: rest ->
  exists w',
    get_ingredients_from_user w = (Ok (map strip goods), w') /\
    stdin w' = rest /\ same_outside w w' /\
    trace w' =
    trace w ++
    [Printed (nl +:+ "=== AI Recipe Cookbook ===");
     Printed "Enter your ingredients (one per line, press Enter twice when done):"] ++
    ingredient_events (blanks ++ goods) ++ [Prompted "Ingredient: "].
Proof.
  intros Hb Hg Hne Hbl E.
  destruct (get_ingredients_items w blanks goods blank rest Hb Hg Hne Hbl E)
    as (w' & E1 & Hk & Ht).
  pose proof (outside_get_ingredients w) as Ho. rewrite E1 in Ho.
  exists w'. split; [done|]. split; [done|]. by split.
Qed.

Lemma get_ingredients_returns_items_witness :
  exists w',
    get_ingredients_from_user
      (sample_world [Line " "; Line " egg "; Line "egg"; Line "rice"; Line ""; Line "left"]
         (Returns (HasText "Omelette")) []) = (Ok ["egg"; "egg"; "rice"], w') /\
    stdin w' = [Line "left"].
Proof.
  destruct (get_ingredients_returns_items
              (sample_world [Line " "; Line " egg "; Line "egg"; Line "rice"; Line ""; Line "left"]
                 (Returns (HasText "Omelette")) [])
              [" "] [" egg "; "egg"; "rice"] "" [Line "left"]
              eq_refl eq_refl ltac:(done) eq_refl eq_refl) as (w' & H1 & H2 & _).
  exists w'. by split.
Defined.

(** X2: when the keyboard input ends before the list is closed (blank
    lines, then lines that are not blank, then nothing), the loop reads
    every line and then raises [EOFError]: what was collected is not
    returned. *)
Theorem get_ingredients_runs_out (w : world) (blanks goods : list string) :
  forallb is_blank blanks = true ->
  forallb (fun s => negb (is_blank s)) goods = true ->
  stdin w = map Line blanks ++ map Line goods ->
  exists w',
    get_ingredients_from_user w = (Raise (Exception eof_message), w') /\
    stdin w' = [] /\ same_outside w w'.
Proof.
  intros Hb Hg E.
  destruct (get_ingredients_eof w blanks goods Hb Hg E) as (w' & E1 & Hk).
  pose proof (outside_get_ingredients w) as Ho. rewrite E1 in Ho.
  exists w'. split; [done|]. by split.
Qed.

Lemma get_ingredients_runs_out_witness :
  exists w',
    get_ingredients_from_user
      (sample_world [Line ""; Line "egg"; Line "rice"] (Returns (HasText "Omelette")) [])
    = (Raise (Exception eof_message), w') /\ stdin w' = [].
Proof.
  destruct (get_ingredients_runs_out
              (sample_world [Line ""; Line "egg"; Line "rice"] (Returns (HasText "Omelette")) [])
              [""] ["egg"; "rice"] eq_refl eq_refl eq_refl) as (w' & H1 & H2 & _).
  exists w'. by split.
Defined.

(* ===================================================================== *)
(** ** Further properties: preferences, display, generation *)
(* ===================================================================== *)

(** X3: whenever [get_additional_preferences] returns, it has taken
    exactly two lines from the keyboard and returns their trimmed texts,
    and it has changed nothing but the keyboard input and the trace; so an
    answer of white space only is no preference: the prompt built from it
    renders [None] (or [Any]). *)
Theorem preferences_are_two_trimmed_lines (w w' : world) (prefs : string * string) :
  get_additional_preferences w = (Ok prefs, w') ->
  exists d c,
    stdin w = Line d :: Line c :: stdin w' /\
    prefs = (strip d, strip c) /\
    strip prefs.1 = prefs.1 /\ strip prefs.2 = prefs.2 /\
    same_outside w w' /\
    (forall ingredients,
       (is_blank d = true ->
        generate_recipe_prompt ingredients prefs.1 prefs.2 =
        generate_recipe_prompt ingredients "None" prefs.2) /\
       (is_blank c = true ->
        generate_recipe_prompt ingredients prefs.1 prefs.2 =
        generate_recipe_prompt ingredients prefs.1 "Any")).
Proof.
  unfold get_additional_preferences, bind, print, input. cbn [stdin log].
  destruct (stdin w) as [|[d| |] [|[c| |] rest]] eqn:E; try done.
  cbn [stdin with_stdin log]. intros [= <- <-]. exists d, c.
  cbn [fst snd stdin with_stdin log]. split; [done|]. split; [done|].
  split; [apply strip_idem|]. split; [apply strip_idem|]. split; [done|].
  intros ingredients. unfold is_blank.
  split; intros ->%String.eqb_eq; reflexivity.
Qed.

Lemma preferences_are_two_trimmed_lines_witness :
  exists d c,
    [Line "  "; Line " Indian "; Line "y"] = Line d :: Line c :: [Line "y"] /\
    ("", "Indian") = (strip d, strip c).
Proof.
  destruct (preferences_are_two_trimmed_lines
              (sample_world [Line "  "; Line " Indian "; Line "y"]
                 (Returns (HasText "Omelette")) [])
              _ ("", "Indian") eq_refl) as (d & c & H1 & H2 & _).
  by exists d, c.
Defined.

Section Display.

Lemma outside_display_recipe r : stable same_outside (display_recipe r).
Proof.
  unfold display_recipe.
  repeat first [ apply outside_print | stable_step ].
Qed.

Lemma display_recipe_success (r : recipe_dict) (w : world) (g : string) :
  status r = Some "success" -> generated_recipe r = Some g ->
  (display_recipe r w).1 = Ok tt.
Proof.
  intros Hs Hg. unfold display_recipe, bind, print, getitem, ret.
  rewrite Hs. cbn [fst snd]. rewrite String.eqb_refl. by rewrite Hg.
Qed.

End Display.

(** X4: [display_recipe] reads no key, calls no service and touches no
    file; it always prints its three-line header first.  It raises
    [KeyError] exactly when the dict lacks [status] or the entry its status
    selects, and then prints no closing rule; a status other than
    [success] shows the [error] entry. *)
Theorem display_recipe_outcomes (r : recipe_dict) (w : world) :
  let out := display_recipe r w in
  stdin out.2 = stdin w /\ same_outside w out.2 /\
  match status r with
  | None =>
      out.1 = Raise (Exception "'status'") /\
      trace out.2 = trace w ++ display_header
  | Some st =>
      if String.eqb st "success" then
        match generated_recipe r with
        | Some g =>
            out.1 = Ok tt /\
            trace out.2 = trace w ++ display_header ++ [Printed g; display_rule]
        | None =>
            out.1 = Raise (Exception "'generated_recipe'") /\
            trace out.2 = trace w ++ display_header
        end
      else
        match error r with
        | Some e =>
            out.1 = Ok tt /\
            trace out.2 =
            trace w ++ display_header ++
            [Printed (glyph_cross +:+ " Error: " +:+ e); display_rule]
        | None =>
            out.1 = Raise (Exception "'error'") /\
            trace out.2 = trace w ++ display_header
        end
  end.
Proof.
  intros out. split; [apply keys_display_recipe|].
  split; [apply outside_display_recipe|]. subst out.
  unfold display_recipe, bind, print, getitem, ret, raise, display_header, display_rule.
  destruct (status r) as [st|]; cbn [fst snd trace log];
    [|by rewrite <- !app_assoc].
  destruct (String.eqb st "success");
    [destruct (generated_recipe r)|destruct (error r)];
    cbn [fst snd trace log]; by rewrite <- !app_assoc.
Qed.

(** X5: one call of [generate_recipe] is one call of the service, with no
    second try: the count of calls goes up by one whatever the service
    does.  The keyboard input, the files and the disk stay as they were,
    and a dict that comes back always holds the ingredients as given and a
    timestamp; it is a success exactly when the service gave a text. *)
Theorem generate_recipe_calls_once (ingredients : list string) (d c : string)
    (w : world) :
  let out := generate_recipe ingredients d c w in
  calls out.2 = S (calls w) /\
  stdin out.2 = stdin w /\ files out.2 = files w /\ disk out.2 = disk w /\
  gemini out.2 = gemini w /\
  (forall r, out.1 = Ok r ->
     input_ingredients r = Some ingredients /\
     is_Some (timestamp r) /\
     (status r = Some "success" <->
      exists t, gemini w (calls w) (generate_recipe_prompt ingredients d c) =
                Returns (HasText t))).
Proof.
  intros out. subst out. rewrite generate_recipe_cases. cbv zeta.
  destruct (gemini w (calls w) _) as [[t|msg]|[|msg]];
    cbn [fst snd calls stdin files disk gemini log with_ticks with_calls];
    (do 5 (split; [done|])); intros r [= <-]; (split; [done|]);
    (split; [by eexists|]); cbn [status success_result failure_result];
    split; try done; try (intros _; by eexists); by intros (t' & [=]).
Qed.

Lemma generate_recipe_calls_once_witness :
  let out := generate_recipe ["egg"] "" ""
               (sample_world [] (Fails (Exception "quota exceeded")) []) in
  calls out.2 = 1 /\
  input_ingredients (failure_result "2024-03-09T07:05:00.001234" ["egg"] "quota exceeded")
  = Some ["egg"].
Proof.
  intros out.
  pose proof (generate_recipe_calls_once ["egg"] "" ""
                (sample_world [] (Fails (Exception "quota exceeded")) []))
    as (Hc & _ & _ & _ & _ & Hr).
  split; [exact Hc|]. exact (proj1 (Hr _ eq_refl)).
Defined.

(* ===================================================================== *)
(** ** Further properties: save_recipe and the file name *)
(* ===================================================================== *)

Section SaveFrame.

Global Instance off_path_preorder (path : string) : PreOrder (off_path path).
Proof.
  split; [done|]. intros x y z H1 H2 p Hp. by rewrite (H2 p Hp), (H1 p Hp).
Qed.

Global Instance healthy_kept_preorder : PreOrder healthy_kept.
Proof. split; [by intros x H|]. intros x y z H1 H2 H. by apply H2, H1. Qed.

Lemma off_path_print path s : stable (off_path path) (print s).
Proof. done. Qed.
Lemma off_path_open_w path : stable (off_path path) (open_w path).
Proof.
  intros w p Hp. unfold open_w.
  destruct (next_fault (disk w)) as [[e|] d]; cbn [snd files with_files log]; [done|].
  by rewrite lookup_insert_ne.
Qed.
Lemma off_path_write path s : stable (off_path path) (write path s).
Proof.
  intros w p Hp. unfold write.
  destruct (next_fault (disk w)) as [[e|] d]; cbn [snd files with_files log]; [done|].
  by rewrite lookup_insert_ne.
Qed.

Lemma healthy_print s : stable healthy_kept (print s).
Proof. by intros w H. Qed.
Lemma healthy_open_w path : stable healthy_kept (open_w path).
Proof.
  intros w H. unfold open_w. destruct (disk w) as [|[e|] d]; by cbn in *.
Qed.
Lemma healthy_write path s : stable healthy_kept (write path s).
Proof.
  intros w H. unfold write. destruct (disk w) as [|[e|] d]; by cbn in *.
Qed.

Lemma service_open_w path : stable same_service (open_w path).
Proof. intros w. unfold open_w. by destruct (next_fault (disk w)) as [[e|] d]. Qed.
Lemma service_write path s : stable same_service (write path s).
Proof. intros w. unfold write. by destruct (next_fault (disk w)) as [[e|] d]. Qed.

(** The part of [save_recipe] after the reading of the clock. *)
Lemma save_recipe_after_now (r : recipe_dict) (w : world) :
  exists body : M string,
    save_recipe r w = body (with_ticks w (S (ticks w))) /\
    stable (off_path (filepath_at (clock w (ticks w)))) body /\
    stable healthy_kept body /\ stable same_service body.
Proof.
  unfold save_recipe. rewrite now_then. cbv zeta.
  fold (filename_at (clock w (ticks w))). fold (filepath_at (clock w (ticks w))).
  eexists. split; [reflexivity|]. split; [|split].
  - repeat first [ apply off_path_print | apply off_path_open_w
                 | apply off_path_write | stable_step ].
  - repeat first [ apply healthy_print | apply healthy_open_w
                 | apply healthy_write | stable_step ].
  - repeat first [ apply service_print | apply service_open_w
                 | apply service_write | stable_step ].
Qed.

End SaveFrame.

(** X6: [save_recipe] writes to one path only: whatever the dict and
    whatever the disk does, every file but the one named after the reading
    of the clock is as it was; the keyboard input and the service are left
    alone, and the clock has been read once. *)
Theorem save_recipe_touches_one_file (r : recipe_dict) (w : world) (p : string) :
  p <> filepath_at (clock w (ticks w)) ->
  let out := save_recipe r w in
  files out.2 !! p = files w !! p /\
  stdin out.2 = stdin w /\ gemini out.2 = gemini w /\ calls out.2 = calls w.
Proof.
  intros Hp out. subst out.
  pose proof (keys_save_recipe r w) as Hk.
  destruct (save_recipe_after_now r w) as (body & E & Ho & _ & Hs).
  rewrite E in *. split; [exact (Ho _ p Hp)|]. split; [exact Hk|]. exact (Hs _).
Qed.

Lemma save_recipe_touches_one_file_witness :
  let w := sample_world [] (Returns (HasText "Omelette")) [] in
  files (save_recipe (success_result "2024-03-09T07:05:00" ["egg"] "" "" "Omelette") w).2
    !! "generated_recipes/recipe_20240101_000000.txt" =
  files w !! "generated_recipes/recipe_20240101_000000.txt".
Proof.
  intros w.
  refine (proj1 (save_recipe_touches_one_file _ w _ _)).
  vm_compute. discriminate.
Defined.

Section FailedSave.

Lemma save_recipe_no_timestamp (r : recipe_dict) (w : world) :
  timestamp r = None -> no_fault (disk w) = true ->
  exists faults,
    save_recipe r w =
    (Ok "",
     log (Printed (glyph_cross +:+ " Error saving recipe: 'timestamp'"))
       (with_files (log (Opened (filepath_at (clock w (ticks w))))
                      (with_ticks w (S (ticks w))))
          (<[filepath_at (clock w (ticks w)) :=
               "=== AI Generated Recipe ===" +:+ nl +:+ nl]> (files w))
          faults)).
Proof.
  intros Hts Hd. unfold save_recipe. rewrite now_then. cbv zeta.
  fold (filename_at (clock w (ticks w))). fold (filepath_at (clock w (ticks w))).
  unfold try_except. rewrite open_then by done.
  rewrite write_then by (by apply no_fault_tail).
  rewrite Hts. eexists. reflexivity.
Qed.

Lemma save_recipe_first_write_fails (r : recipe_dict) (w : world) (msg : string)
    (rest : list (option exn)) :
  disk w = None :: Some (Exception msg) :: rest ->
  save_recipe r w =
  (Ok "",
   log (Printed (glyph_cross +:+ " Error saving recipe: " +:+ msg))
     (with_files (log (Opened (filepath_at (clock w (ticks w))))
                    (with_ticks w (S (ticks w))))
        (<[filepath_at (clock w (ticks w)) := ""]> (files w)) rest)).
Proof.
  intros Hd. unfold save_recipe. rewrite now_then. cbv zeta.
  fold (filename_at (clock w (ticks w))). fold (filepath_at (clock w (ticks w))).
  unfold try_except, bind at 1, open_w.
  change (disk (with_ticks w (S (ticks w)))) with (disk w). rewrite Hd.
  cbn [next_fault]. unfold bind at 1, write. cbn [disk with_files log next_fault].
  reflexivity.
Qed.

End FailedSave.

(** X7: a save that fails after the file was opened leaves the file
    behind.  For a dict without [timestamp] (the disk working) the file
    holds the title line alone, and when the first [write] raises the file
    is empty; either way the error is printed and the empty string
    returned. *)
Theorem failed_save_leaves_file (r : recipe_dict) (w : world) :
  let out := save_recipe r w in
  let path := filepath_at (clock w (ticks w)) in
  (timestamp r = None -> no_fault (disk w) = true ->
   out.1 = Ok "" /\
   files out.2 !! path = Some ("=== AI Generated Recipe ===" +:+ nl +:+ nl) /\
   last (trace out.2) =
   Some (Printed (glyph_cross +:+ " Error saving recipe: 'timestamp'"))) /\
  (forall msg rest, disk w = None :: Some (Exception msg) :: rest ->
   out.1 = Ok "" /\
   files out.2 !! path = Some "" /\
   last (trace out.2) =
   Some (Printed (glyph_cross +:+ " Error saving recipe: " +:+ msg))).
Proof.
  intros out path. subst out path. split.
  - intros Hts Hd. destruct (save_recipe_no_timestamp r w Hts Hd) as [f ->].
    cbn [fst snd files trace log with_files].
    split; [done|]. split; [by rewrite lookup_insert_eq|apply last_snoc].
  - intros msg rest Hd. rewrite (save_recipe_first_write_fails r w msg rest Hd).
    cbn [fst snd files trace log with_files].
    split; [done|]. split; [by rewrite lookup_insert_eq|apply last_snoc].
Qed.

Lemma failed_save_leaves_file_witness :
  let w := sample_world [] (Returns (HasText "Omelette"))
             [None; Some (Exception "No space left on device")] in
  let r := {| timestamp := None; input_ingredients := Some ["egg"];
              dietary_restrictions := None; cuisine_type := None;
              generated_recipe := Some "Omelette"; error := None;
              status := Some "success" |} in
  files (save_recipe r w).2 !! filepath_at sample_time = Some "" /\
  files (save_recipe r (sample_world [] (Returns (HasText "Omelette")) [])).2
    !! filepath_at sample_time = Some ("=== AI Generated Recipe ===" +:+ nl +:+ nl).
Proof.
  intros w r. split.
  - exact (proj1 (proj2 (proj2 (failed_save_leaves_file r w)
                           "No space left on device" [] eq_refl))).
  - exact (proj1 (proj2 (proj1 (failed_save_leaves_file r
                                  (sample_world [] (Returns (HasText "Omelette")) []))
                           eq_refl eq_refl))).
Defined.

Section FileName.

Lemma same_second_filename (a b : datetime) :
  same_second a b -> filename_at a = filename_at b.
Proof.
  intros (Hy & Hm & Hd & Hh & Hmi & Hs).
  unfold filename_at, strftime_stamp. by rewrite Hy, Hm, Hd, Hh, Hmi, Hs.
Qed.

Lemma number_from_append (acc : N) (s t : string) :
  number_from acc (s +:+ t) = number_from (number_from acc s) t.
Proof.
  revert acc. induction s as [|c s IH]; intros acc; [done|].
  rewrite append_cons. cbn [number_from]. apply IH.
Qed.

Lemma digit_value_digit (n : N) : digit_value (digit n) = (n mod 10)%N.
Proof.
  unfold digit_value, digit.
  pose proof (N.mod_upper_bound n 10 ltac:(done)) as Hk.
  generalize dependent (n mod 10)%N. intros k Hk.
  rewrite N_ascii_embedding; lia.
Qed.

(** Reading back what [str] printed gives the number. *)
Lemma number_of_decimal (n : N) : number_of (decimal n) = n.
Proof.
  induction (N.lt_wf_0 n) as [n _ IH].
  rewrite decimal_unfold. unfold number_of. rewrite number_from_append.
  cbn [number_from]. rewrite digit_value_digit.
  destruct (N.ltb_spec n 10) as [Hs|Hs].
  - cbn [number_from]. rewrite N.mod_small by done. lia.
  - fold (number_of (decimal (n / 10))). rewrite IH.
    + pose proof (N.Div0.div_mod n 10). lia.
    + apply N.div_lt; lia.
Qed.

Lemma number_of_zfill (width : nat) (s : string) :
  number_of (zfill width s) = number_of s.
Proof.
  unfold number_of, zfill. rewrite number_from_append. f_equal.
  induction (width - String.length s) as [|k IH]; [done|].
  cbn [repeat_str]. rewrite number_from_append. exact IH.
Qed.

Lemma append_inj (a a' b b' : string) :
  String.length a = String.length a' -> a +:+ b = a' +:+ b' -> a = a' /\ b = b'.
Proof.
  revert a'. induction a as [|c a IH]; intros [|c' a'] Hl E; try done.
  rewrite !append_cons in E. injection E as -> E. injection Hl as Hl.
  by destruct (IH a' Hl E) as [-> ->].
Qed.

Lemma two_digits_inj (m n : N) :
  zfill 2 (decimal m) = zfill 2 (decimal n) -> m = n.
Proof.
  intros E. apply (f_equal number_of) in E.
  by rewrite !number_of_zfill, !number_of_decimal in E.
Qed.

Lemma filename_same_second_inv (a b : datetime) :
  plausible a -> plausible b -> filename_at a = filename_at b -> same_second a b.
Proof.
  intros (Hy & Hm & Hd & Hh & Hmi & Hs & _) (Hy' & Hm' & Hd' & Hh' & Hmi' & Hs' & _).
  unfold filename_at, strftime_stamp. rewrite !append_assoc. intros E.
  apply append_inj in E as [_ E]; [|done].
  apply append_inj in E as [Ey E]; [|by rewrite !length_four_digits].
  apply append_inj in E as [Em E]; [|rewrite !length_two_digits; [done|lia..]].
  apply append_inj in E as [Ed E]; [|rewrite !length_two_digits; [done|lia..]].
  apply append_inj in E as [_ E]; [|done].
  apply append_inj in E as [Eh E]; [|rewrite !length_two_digits; [done|lia..]].
  apply append_inj in E as [Emi E]; [|rewrite !length_two_digits; [done|lia..]].
  apply append_inj in E as [Es _]; [|rewrite !length_two_digits; [done|lia..]].
  apply (f_equal number_of) in Ey. rewrite !number_of_decimal in Ey.
  repeat split; [done|by apply two_digits_inj..].
Qed.

End FileName.

(** X8: the name of the file tells the second of the save and nothing
    finer: for readings of the clock with a four-digit year, two saves get
    the same file name exactly when the readings are in the same second. *)
Theorem filename_tells_the_second (a b : datetime) :
  plausible a -> plausible b ->
  (filename_at a = filename_at b <-> same_second a b) /\
  (filepath_at a = filepath_at b <-> same_second a b).
Proof.
  intros Ha Hb.
  assert (H1 : filename_at a = filename_at b <-> same_second a b).
  { split; [by apply filename_same_second_inv|apply same_second_filename]. }
  split; [done|]. rewrite <- H1. unfold filepath_at. split; [|by intros ->].
  rewrite <- !append_assoc. intros E. by apply append_inj in E as [_ E].
Qed.

Lemma filename_tells_the_second_witness :
  filename_at sample_time =
  filename_at {| year := 2024; month := 3; day := 9; hour := 7; minute := 5;
                 second := 0; microsecond := 999999 |}.
Proof.
  refine (proj2 (proj1 (filename_tells_the_second sample_time _ _ _)) _);
    unfold plausible, same_second; simpl; lia.
Defined.

(** X9: within one second the last save wins: with a working disk, a
    second [save_recipe] whose reading of the clock falls in the second of
    the first returns the same file name and leaves the second dict's file
    in the place of the first's. *)
Theorem second_save_overwrites (w : world)
    (ts1 : string) (i1 : list string) (d1 c1 t1 : string)
    (ts2 : string) (i2 : list string) (d2 c2 t2 : string) :
  no_fault (disk w) = true ->
  same_second (clock w (ticks w)) (clock w (S (ticks w))) ->
  let first := save_recipe (success_result ts1 i1 d1 c1 t1) w in
  let second := save_recipe (success_result ts2 i2 d2 c2 t2) first.2 in
  first.1 = Ok (filename_at (clock w (ticks w))) /\
  files first.2 !! filepath_at (clock w (ticks w)) =
  Some (artifact_format ts1 i1 d1 c1 t1) /\
  second.1 = Ok (filename_at (clock w (ticks w))) /\
  files second.2 !! filepath_at (clock w (ticks w)) =
  Some (artifact_format ts2 i2 d2 c2 t2).
Proof.
  intros Hd Hsec first second. subst first second.
  assert (Hh : no_fault (disk (save_recipe (success_result ts1 i1 d1 c1 t1) w).2) = true).
  { destruct (save_recipe_after_now (success_result ts1 i1 d1 c1 t1) w)
      as (body & -> & _ & Hk & _). by apply Hk. }
  destruct (save_recipe_success ts1 i1 d1 c1 t1 w Hd) as [f1 E1].
  rewrite E1 in *. cbn [fst snd] in *.
  match type of Hh with no_fault (disk ?x) = true => set (w1 := x) in * end.
  destruct (save_recipe_success ts2 i2 d2 c2 t2 w1 Hh) as [f2 E2].
  assert (Hn : filename_at (clock w1 (ticks w1)) = filename_at (clock w (ticks w))).
  { symmetry. by apply same_second_filename. }
  assert (Hp : filepath_at (clock w1 (ticks w1)) = filepath_at (clock w (ticks w))).
  { unfold filepath_at. by rewrite Hn. }
  rewrite Hn, Hp in E2. rewrite E2. cbn [fst snd files log with_files].
  split; [done|]. split; [subst w1; cbn [files log with_files]|];
    by rewrite ?lookup_insert_eq.
Qed.

Lemma second_save_overwrites_witness :
  let w := sample_world [] (Returns (HasText "Omelette")) [] in
  files (save_recipe (success_result "b" ["rice"] "" "" "Risotto")
           (save_recipe (success_result "a" ["egg"] "" "" "Omelette") w).2).2
    !! filepath_at sample_time =
  Some (artifact_format "b" ["rice"] "" "" "Risotto").
Proof.
  intros w.
  refine (proj2 (proj2 (proj2
            (second_save_overwrites w "a" ["egg"] "" "" "Omelette"
               "b" ["rice"] "" "" "Risotto" eq_refl _)))).
  by repeat split.
Defined.

(* ===================================================================== *)
(** ** Further properties: the session as a whole *)
(* ===================================================================== *)

Section Session.

Lemma loop_body_returns (w : world) : exists c w', loop_body w = (Ok c, w').
Proof.
  unfold loop_body, try_except2, bind, print, ret.
  destruct (iteration w) as [[c|[|msg]] w1]; eauto.
Qed.

Lemma session_loop_ok (fuel : nat) (w : world) (out : result unit * world) :
  session_loop fuel w = Some out -> out.1 = Ok tt.
Proof.
  revert w. induction fuel as [|fuel IH]; intros w; [done|]. cbn [session_loop].
  destruct (loop_body_returns w) as (c & w' & ->).
  destruct c; [by intros [= <-]|apply IH].
Qed.

Lemma run_interactive_mode_ok (fuel : nat) (w : world) (out : result unit * world) :
  run_interactive_mode fuel w = Some out -> out.1 = Ok tt.
Proof.
  unfold run_interactive_mode, bind, print.
  destruct (session_loop fuel _) as [[[[]|e] w1]|] eqn:E; try done.
  - by intros [= <-].
  - by apply session_loop_ok in E.
Qed.

(** A round begun at the end of the input. *)
Lemma loop_body_at_eof (w : world) :
  stdin w = [] ->
  exists w', loop_body w = (Ok Continue, w') /\ stdin w' = [] /\
             last (trace w') =
             Some (Printed (glyph_cross +:+ " Unexpected error: " +:+ eof_message)).
Proof.
  intros E.
  destruct (get_ingredients_eof w [] [] eq_refl eq_refl E) as (w1 & E1 & Hk).
  assert (Hi : iteration w = (Raise (Exception eof_message), w1)).
  { unfold iteration, bind. by rewrite E1. }
  rewrite (loop_body_unexpected w w1 eof_message Hi). eexists. split; [done|].
  split; [done|]. apply last_snoc.
Qed.

End Session.

(** X10: what is raised inside the [try] of the loop stays in the loop.
    Exceptions come here from [input], from the call of the service, from
    the file operations and from the lookups in the dict, all of them
    inside that [try]; [print] is total, and an interrupt comes at [input]
    or at the call of the service only.  With that, every round of the
    loop ends in [break] or goes on to the next one, and whenever
    [session_loop] or [run_interactive_mode] comes to an end it returns
    normally; so once the constructor has returned, [main] is the session.
    (A [print] outside the [try] that raised, or an interrupt during one,
    would leave the session; that is outside this statement.) *)
Theorem session_contains_its_exceptions (fuel : nat) (w : world) :
  (exists c w', loop_body w = (Ok c, w')) /\
  (forall out, session_loop fuel w = Some out -> out.1 = Ok tt) /\
  (forall out, run_interactive_mode fuel w = Some out -> out.1 = Ok tt) /\
  (forall h c h', init None h = (inl c, h') ->
     main fuel h w = (run_interactive_mode fuel w, h')).
Proof.
  split; [apply loop_body_returns|]. split; [intros out; apply session_loop_ok|].
  split; [intros out; apply run_interactive_mode_ok|].
  intros h c h' Hi. unfold main. rewrite Hi.
  destruct (run_interactive_mode fuel w) as [[[[]|[|e]] w1]|] eqn:E; try done.
  by apply run_interactive_mode_ok in E.
Qed.

Lemma session_contains_its_exceptions_witness :
  exists w',
    run_interactive_mode 1
      (sample_world [Line "egg"; Line ""; CtrlC] (Returns (HasText "Omelette")) [])
    = Some (Ok tt, w').
Proof.
  destruct (run_interactive_mode 1
              (sample_world [Line "egg"; Line ""; CtrlC] (Returns (HasText "Omelette")) []))
    as [[x w']|] eqn:E; [|by vm_compute in E].
  pose proof (proj1 (proj2 (proj2 (session_contains_its_exceptions 1
                (sample_world [Line "egg"; Line ""; CtrlC]
                   (Returns (HasText "Omelette")) []))))
              (x, w') E) as H.
  cbn in H. subst x. by exists w'.
Defined.

(** X11: at the end of the keyboard input the loop never stops: each
    round raises [EOFError] at its first [input], the loop boundary prints
    it as an unexpected error and starts the next round, so no number of
    rounds brings [session_loop] or [run_interactive_mode] to an end. *)
Theorem session_spins_at_eof (w : world) :
  stdin w = [] ->
  (exists w', loop_body w = (Ok Continue, w') /\ stdin w' = [] /\
              last (trace w') =
              Some (Printed (glyph_cross +:+ " Unexpected error: " +:+ eof_message))) /\
  (forall fuel, session_loop fuel w = None) /\
  (forall fuel, run_interactive_mode fuel w = None).
Proof.
  intros E. split; [by apply loop_body_at_eof|].
  assert (Hs : forall fuel w0, stdin w0 = [] -> session_loop fuel w0 = None).
  { induction fuel as [|fuel IH]; intros w0 E0; [done|]. cbn [session_loop].
    destruct (loop_body_at_eof w0 E0) as (w' & -> & E' & _). by apply IH. }
  split; [intros fuel; by apply Hs|].
  intros fuel. unfold run_interactive_mode, bind, print. by rewrite Hs.
Qed.

Lemma session_spins_at_eof_witness :
  run_interactive_mode 1000 (sample_world [] (Returns (HasText "Omelette")) []) = None.
Proof.
  exact (proj2 (proj2 (session_spins_at_eof
                         (sample_world [] (Returns (HasText "Omelette")) []) eq_refl))
           1000).
Defined.

Section WholeRound.

Lemma preferences_from_two_lines (w : world) (d c : string) (rest : list keyboard) :
  stdin w = Line d :: Line c :: rest ->
  exists w', get_additional_preferences w = (Ok (strip d, strip c), w') /\
             stdin w' = rest /\ same_outside w w'.
Proof.
  intros E. unfold get_additional_preferences, bind, print, input.
  cbn [stdin log]. rewrite E. cbn [stdin with_stdin log].
  eexists. split; [reflexivity|]. by split.
Qed.

Lemma offer_save_yes (r : recipe_dict) (w : world) (yes : string)
    (rest : list keyboard) :
  status r = Some "success" -> stdin w = Line yes :: rest -> says_yes yes = true ->
  offer_save r w =
  (_ <- save_recipe r ;; ret tt) (with_stdin (log (Prompted save_prompt) w) rest).
Proof.
  intros Hs E Hy. unfold offer_save, bind at 1, getitem. rewrite Hs.
  cbn [ret]. rewrite String.eqb_refl. unfold bind at 1, input. by rewrite E, Hy.
Qed.

End WholeRound.

(** X12: a whole round that ends in a saved recipe.  With ingredient
    lines (none blank, at least one), the blank line that closes them, the
    two preference lines and a yes to the question about saving to come at
    the keyboard, a service that answers the prompt built from the trimmed
    lines with a text, and a working disk, the round gets to the question
    whether to go on, has read exactly those lines, and the file named
    after the second reading of the clock holds the format of section 6
    with the first reading as timestamp, the trimmed ingredients and
    preferences, and the text of the service. *)
Theorem round_saves_the_recipe (w : world) (goods : list string)
    (blank d c yes : string) (rest : list keyboard) (t : string) :
  forallb (fun s => negb (is_blank s)) goods = true -> goods <> [] ->
  is_blank blank = true -> says_yes yes = true ->
  stdin w = map Line goods ++ Line blank :: Line d :: Line c :: Line yes :: rest ->
  gemini w (calls w) (generate_recipe_prompt (map strip goods) (strip d) (strip c))
  = Returns (HasText t) ->
  no_fault (disk w) = true ->
  exists w',
    before_question w = (Ok tt, w') /\ stdin w' = rest /\
    calls w' = S (calls w) /\
    files w' !! filepath_at (clock w (S (ticks w))) =
    Some (artifact_format (isoformat (clock w (ticks w)))
            (map strip goods) (strip d) (strip c) t).
Proof.
  intros Hg Hne Hb Hy E Hr Hd. unfold before_question.
  destruct (get_ingredients_items w [] goods blank _ eq_refl Hg Hne Hb E)
    as (w1 & E1 & Hk1 & _).
  pose proof (outside_get_ingredients w) as (Hg1 & Hc1 & Hcl1 & Ht1 & Hf1 & Hd1).
  rewrite E1 in Hg1, Hc1, Hcl1, Ht1, Hf1, Hd1. cbn [snd] in *.
  unfold bind at 1. rewrite E1.
  destruct (preferences_from_two_lines w1 d c _ Hk1)
    as (w2 & E2 & Hk2 & (Hg2 & Hc2 & Hcl2 & Ht2 & Hf2 & Hd2)).
  unfold bind at 1. rewrite E2. cbn [fst snd].
  unfold bind at 1. rewrite generate_recipe_cases. cbv zeta.
  rewrite Hg2, Hc2, Hg1, Hc1, Hr. cbv beta iota.
  set (r := success_result _ _ _ _ _).
  match goal with |- exists _, _ ?x = _ /\ _ => set (w3 := x) end.
  assert (H3 : stdin w3 = Line yes :: rest /\ calls w3 = S (calls w) /\
               clock w3 = clock w /\ ticks w3 = S (ticks w) /\
               files w3 = files w /\ disk w3 = disk w).
  { subst w3. cbn [stdin calls clock ticks files disk log with_calls with_ticks].
    repeat split; congruence. }
  clearbody w3. destruct H3 as (Hk3 & Hc3 & Hcl3 & Ht3 & Hf3 & Hd3).
  pose proof (keys_display_recipe r w3) as Hk4.
  pose proof (outside_display_recipe r w3) as (_ & Hc4 & Hcl4 & Ht4 & Hf4 & Hd4).
  pose proof (display_recipe_success r w3 t eq_refl eq_refl) as Ho.
  unfold same_keys in Hk4.
  unfold bind at 1. destruct (display_recipe r w3) as [x w4]. cbn [fst snd] in *.
  subst x.
  rewrite (offer_save_yes r w4 yes rest eq_refl ltac:(congruence) Hy).
  set (w5 := with_stdin _ rest).
  assert (H5 : no_fault (disk w5) = true) by (subst w5; cbn [disk with_stdin log]; congruence).
  destruct (save_recipe_success (isoformat (clock w2 (ticks w2))) (map strip goods)
              (strip d) (strip c) t w5 H5) as [f E5].
  fold r in E5. unfold bind. rewrite E5. eexists. split; [reflexivity|].
  cbn [stdin calls files log with_files with_ticks]. subst w5.
  cbn [stdin calls files clock ticks log with_stdin].
  split; [done|]. split; [congruence|].
  rewrite Hcl4, Ht4, Hcl3, Ht3, Hcl2, Ht2, Hcl1, Ht1.
  by rewrite lookup_insert_eq.
Qed.

Lemma round_saves_the_recipe_witness :
  exists w',
    before_question
      (sample_world [Line "chicken"; Line " rice "; Line ""; Line ""; Line "Indian";
                     Line "Y"; Line "n"]
         (Returns (HasText "Chicken Biryani...")) []) = (Ok tt, w') /\
    stdin w' = [Line "n"] /\
    files w' !! "generated_recipes/recipe_20240309_070500.txt" =
    Some (artifact_format "2024-03-09T07:05:00.001234" ["chicken"; "rice"] "" "Indian"
            "Chicken Biryani...").
Proof.
  destruct (round_saves_the_recipe
              (sample_world [Line "chicken"; Line " rice "; Line ""; Line ""; Line "Indian";
                             Line "Y"; Line "n"]
                 (Returns (HasText "Chicken Biryani...")) [])
              ["chicken"; " rice "] "" "" "Indian" "Y" [Line "n"] "Chicken Biryani..."
              eq_refl ltac:(done) eq_refl eq_refl eq_refl eq_refl eq_refl)
    as (w' & H1 & H2 & _ & H4).
  exists w'. split; [exact H1|]. split; [exact H2|exact H4].
Defined.

(* ===================================================================== *)
(** ** Further properties: the constructor and main *)
(* ===================================================================== *)

(** X13: a constructor that raises stops [main] before the session:
    [main] reads no key, calls no service and touches no file; for a
    [ValueError] it prints the configuration error with its three
    remedies, for any other error one error line, and ends.  The
    constructor raises the [ValueError] about the key, before it touches
    anything, when the argument is left out and the environment variable
    is missing or empty; an empty string given as the argument is refused
    in the same way, whatever the environment holds. *)
Theorem failed_constructor_stops_main (fuel : nat) (h : host) (w : world) :
  (get_truthy (environ h !! "GEMINI_API_KEY") = false ->
   init None h = (inr (ValueError missing_key_message), h)) /\
  init (Some "") h = (inr (ValueError missing_key_message), h) /\
  (forall e h', init None h = (inr e, h') ->
     exists w',
       main fuel h w = (Some (Ok tt, w'), h') /\
       stdin w' = stdin w /\ same_outside w w' /\
       trace w' =
       trace w ++
       match e with
       | ValueError msg =>
           [Printed (glyph_cross +:+ " Configuration Error: " +:+ msg);
            Printed (nl +:+ "To fix this:");
            Printed "1. Get your Gemini API key from: https://makersuite.google.com/app/apikey";
            Printed "2. Set it as environment variable: export GEMINI_API_KEY='your_api_key_here'";
            Printed "3. Or modify the code to pass the API key directly"]
       | OtherError msg => [Printed (glyph_cross +:+ " Error: " +:+ msg)]
       end).
Proof.
  split; [|split].
  - intros Hk. unfold init. cbv zeta. by rewrite Hk.
  - done.
  - intros e h' Hi. unfold main. rewrite Hi. destruct e as [msg|msg].
    + eexists. split; [reflexivity|].
      cbn [snd stdin trace log]. split; [done|]. split; [done|].
      by rewrite <- !app_assoc.
    + eexists. split; [reflexivity|]. by cbn [snd stdin trace log].
Qed.

Lemma failed_constructor_stops_main_witness :
  exists w',
    main 5 (sample_host "" (fun _ => true))
      (sample_world [Line "egg"] (Returns (HasText "Omelette")) []) =
    (Some (Ok tt, w'), sample_host "" (fun _ => true)) /\
    stdin w' = [Line "egg"].
Proof.
  pose proof (failed_constructor_stops_main 5 (sample_host "" (fun _ => true))
                (sample_world [Line "egg"] (Returns (HasText "Omelette")) []))
    as (Hi & _ & Hm).
  destruct (Hm _ _ (Hi ltac:(vm_compute; reflexivity))) as (w' & H1 & H2 & _).
  by exists w'.
Defined.

Section Constructor.

(** The nested [try] blocks of the constructor are a search through the
    list of names. *)
Lemma init_eq (api_key : option string) (h : host) :
  init api_key h =
  if get_truthy (key_of api_key h) then
    let h1 := configure (default "" (key_of api_key h)) h in
    match List.find (accepts h) model_names with
    | None => (inr (ValueError no_model_message), h1)
    | Some name =>
        match makedirs_fault h with
        | Some msg => (inr (OtherError msg), h1)
        | None =>
            (inl {| model := name; folder := "generated_recipes" |},
             {| environ := environ h; configured := key_of api_key h;
                accepts := accepts h; dirs := {["generated_recipes"]} ∪ dirs h;
                makedirs_fault := makedirs_fault h |})
        end
    end
  else (inr (ValueError missing_key_message), h).
Proof.
  unfold init, key_of. cbv zeta.
  destruct (get_truthy _) eqn:Hk; [|done].
  destruct (match api_key with None => _ | Some k => _ end) as [k|]; [|done].
  cbn [default model_names List.find configure accepts]. unfold makedirs.
  cbn [makedirs_fault configure environ configured accepts dirs].
  destruct (accepts h "gemini-1.5-flash-latest");
    [|destruct (accepts h "gemini-1.5-flash");
      [|destruct (accepts h "models/gemini-1.5-flash")]];
    try (destruct (makedirs_fault h)); done.
Qed.

End Constructor.

(** X14: with a key, the constructor takes the first of its three model
    names that [GenerativeModel] accepts, in the order of the source; it
    gives the key to [genai.configure]; then it makes the recipes folder.
    When no name is accepted it raises [ValueError] and makes no folder,
    and when [makedirs] fails that error goes on to the caller. *)
Theorem init_takes_first_model (api_key : option string) (h : host) :
  get_truthy (key_of api_key h) = true ->
  let out := init api_key h in
  configured out.2 = key_of api_key h /\ environ out.2 = environ h /\
  match List.find (accepts h) model_names with
  | Some name =>
      match makedirs_fault h with
      | None =>
          out.1 = inl {| model := name; folder := "generated_recipes" |} /\
          dirs out.2 = {["generated_recipes"]} ∪ dirs h
      | Some msg => out.1 = inr (OtherError msg) /\ dirs out.2 = dirs h
      end
  | None =>
      out.1 = inr (ValueError no_model_message) /\ dirs out.2 = dirs h
  end.
Proof.
  intros Hk out. subst out. rewrite init_eq, Hk. cbv zeta.
  destruct (key_of api_key h) as [k|] eqn:E; [|done].
  destruct (List.find (accepts h) model_names); [|done].
  by destruct (makedirs_fault h).
Qed.

Lemma init_takes_first_model_witness :
  (init None (sample_host "k"
                (fun name => String.eqb name "models/gemini-1.5-flash"))).1
  = inl {| model := "models/gemini-1.5-flash"; folder := "generated_recipes" |}.
Proof.
  exact (proj1 (proj2 (proj2
           (init_takes_first_model None
              (sample_host "k"
                 (fun name => String.eqb name "models/gemini-1.5-flash"))
              ltac:(vm_compute; reflexivity))))).
Defined.

(** X15: constructing is idempotent on the host: when the constructor
    has returned, the recipes folder exists, the folders there before are
    still there, and constructing again with the same key returns the same
    object and leaves the host exactly as it is ([makedirs] with
    [exist_ok] on a folder that exists). *)
Theorem init_is_idempotent (api_key : option string) (h h' : host) (c : cookbook) :
  init api_key h = (inl c, h') ->
  "generated_recipes" ∈ dirs h' /\ dirs h ⊆ dirs h' /\
  folder c = "generated_recipes" /\
  init api_key h' = (inl c, h').
Proof.
  rewrite init_eq. cbv zeta.
  destruct (get_truthy (key_of api_key h)) eqn:Hk; [|done].
  destruct (List.find (accepts h) model_names) as [n|] eqn:En; [|done].
  destruct (makedirs_fault h) eqn:Hm; [done|]. intros [= <- <-].
  cbn [dirs folder].
  split; [set_solver|]. split; [set_solver|]. split; [done|].
  set (h1 := {| environ := environ h; configured := key_of api_key h;
                accepts := accepts h; dirs := {["generated_recipes"]} ∪ dirs h;
                makedirs_fault := None |}).
  assert (Ek : key_of api_key h1 = key_of api_key h) by (by destruct api_key).
  rewrite init_eq, Ek, Hk. cbv zeta. subst h1.
  cbn [environ accepts dirs makedirs_fault configured]. rewrite En.
  assert (Ed : {["generated_recipes"]} ∪ ({["generated_recipes"]} ∪ dirs h)
               = {["generated_recipes"]} ∪ dirs h)
    by (by rewrite (assoc_L (∪)), (idemp_L (∪))).
  by rewrite Ed.
Qed.

Lemma init_is_idempotent_witness :
  "generated_recipes" ∈
  dirs (init None (sample_host "k" (fun _ => true))).2.
Proof.
  exact (proj1 (init_is_idempotent None
                  (sample_host "k" (fun _ => true)) _ _
                  eq_refl)).
Defined.

Section Joined.

Lemma bind_ret_l {A B} (a : A) (f : A -> M B) : bind (ret a) f = f a.
Proof. reflexivity. Qed.

(** [save_recipe] sees the ingredients of a dict through their joined
    text alone. *)
Lemma save_recipe_joined (ts : string) (i1 i2 : list string) (d c body : string)
    (w : world) :
  join ", " i1 = join ", " i2 ->
  save_recipe (success_result ts i1 d c body) w =
  save_recipe (success_result ts i2 d c body) w.
Proof.
  intros Ej. unfold save_recipe. rewrite !now_then.
  cbn [success_result timestamp input_ingredients dietary_restrictions
       cuisine_type generated_recipe error status].
  unfold getitem. cbv beta iota. rewrite !bind_ret_l. by rewrite Ej.
Qed.

End Joined.

(** X16: the joined list does not keep the boundaries between the
    ingredients: an ingredient with a comma and a space inside gives the
    same prompt, and the same saved file, as its two parts given one after
    the other. *)
Theorem joined_list_forgets_boundaries (x y : string) (l : list string)
    (d c ts body : string) (w : world) :
  join ", " ((x +:+ ", " +:+ y) :: l) = join ", " (x :: y :: l) /\
  generate_recipe_prompt ((x +:+ ", " +:+ y) :: l) d c =
  generate_recipe_prompt (x :: y :: l) d c /\
  save_recipe (success_result ts ((x +:+ ", " +:+ y) :: l) d c body) w =
  save_recipe (success_result ts (x :: y :: l) d c body) w.
Proof.
  assert (Ej : join ", " ((x +:+ ", " +:+ y) :: l) = join ", " (x :: y :: l)).
  { destruct l as [|z l]; [done|].
    rewrite !join_cons by done. by rewrite !append_assoc. }
  split; [done|]. split; [by rewrite !prompt_split, Ej|].
  by apply save_recipe_joined.
Qed.
